(** * AnyListDB: ownership-scoped services, role gate and credential checks

    A shallow embedding of the NestJS services of the AnyList GraphQL
    backend (users, auth, items, lists, list items) together with the
    properties stated about them.

    Conventions of the embedding:
    - a table with a uuid primary key is a finite map [gmap string row]
      from the key to the row; where the code reads many rows
      ([getMany]) the rows come in the order of [map_to_list], which is
      fixed for one snapshot of the table;
    - a service method that only reads takes the table and returns a
      [Result]; a method that writes returns the new table paired with
      its [Result], and leaves the table untouched when it throws;
    - a thrown exception is the [inl] of the result, a resolved promise
      the [inr];
    - the items and lists services hand the id they are called with to
      a query on the uuid primary key: the server reads the text as a
      uuid ([Sql.uuid_in]), the query fails when it cannot, and two
      texts that read as the same uuid name the same row.  Tables are
      keyed by the canonical text the server prints for a uuid; the ids
      given to the users and list-item services stand for uuids already
      read;
    - strings are byte strings; [toLowerCase] and SQL [LOWER] are given
      on ASCII text, where both fold the letters A-Z and nothing else;
      the statements about searching are restricted to ASCII names and
      terms. *)

From Stdlib Require Import Ascii ZArith.
From stdpp Require Import gmap strings list fin_maps.

(** ** JavaScript values the services branch on *)

Module Js.

(** [if (s)] and [s && ...] on a string: only the empty string is falsy. *)
Definition truthy_str (s : string) : bool :=
  match s with EmptyString => false | String _ _ => true end.

(** A promise that has not been awaited.  It is an object, so it is
    truthy whatever it is going to resolve to. *)
Inductive Promise (A : Type) : Type :=
| resolves (value : A).
Arguments resolves {A} value.

Definition truthy_promise {A : Type} (p : Promise A) : bool := true.

(** [await p], and also what an [async] function returning [p] resolves to. *)
Definition await {A : Type} (p : Promise A) : A :=
  match p with resolves v => v end.

(** [Array.prototype.join] *)
Fixpoint join (sep : string) (xs : list string) : string :=
  match xs with
  | [] => ""
  | [x] => x
  | x :: rest => x +:+ sep +:+ join sep rest
  end.

Definition is_prefix (p s : string) : bool := String.prefix p s.

Fixpoint drop_chars (n : nat) (s : string) : string :=
  match n, s with
  | S n', String _ s' => drop_chars n' s'
  | _, _ => s
  end.

(** [s.replace(pat, rep)] with a string pattern: the first occurrence only. *)
Fixpoint replace (pat rep s : string) : string :=
  if is_prefix pat s then rep +:+ drop_chars (String.length pat) s
  else match s with
       | EmptyString => EmptyString
       | String c s' => String c (replace pat rep s')
       end.

(** the text is ASCII: every byte is below 128 *)
Fixpoint is_ascii (s : string) : bool :=
  match s with
  | EmptyString => true
  | String c s' => (nat_of_ascii c <? 128)%nat && is_ascii s'
  end.

(** the lower-case form of one ASCII character *)
Definition lower_char (c : ascii) : ascii :=
  let n := nat_of_ascii c in
  if (65 <=? n)%nat && (n <=? 90)%nat then ascii_of_nat (n + 32) else c.

(** [String.prototype.toLowerCase] on ASCII text.  Outside ASCII the
    JavaScript function follows the Unicode case mappings, which this
    byte-wise definition does not; it is only relied on for strings
    that satisfy [is_ascii]. *)
Fixpoint toLowerCase (s : string) : string :=
  match s with
  | EmptyString => EmptyString
  | String c s' => String (lower_char c) (toLowerCase s')
  end.

End Js.

(** ** Exceptions thrown by the services *)

Module Nest.

Inductive Exception : Type :=
| NotFoundException (message : string)
| BadRequestException (message : string)
| UnauthorizedException (message : string)
| ForbiddenException (message : string)
| InternalServerErrorException (message : string)
(** the error object of the database driver, as TypeORM rethrows it; it
    is not an [HttpException] *)
| QueryFailedError (code detail : string)
(** TypeORM's error of [findOneByOrFail] when no row matches *)
| EntityNotFoundError
(** a plain JavaScript [Error] *)
| JsError (message : string).

(** [error instanceof HttpException] *)
Definition isHttpException (e : Exception) : bool :=
  match e with
  | QueryFailedError _ _ | EntityNotFoundError | JsError _ => false
  | _ => true
  end.

Definition Result (A : Type) : Type := (Exception + A)%type.

Definition throw {A : Type} (e : Exception) : Result A := inl e.
Definition ret {A : Type} (a : A) : Result A := inr a.

#[global] Instance result_bind : MBind Result :=
  fun A B k r => match r with inl e => inl e | inr a => k a end.

End Nest.
Export Nest.

(** ** Roles *)

Module ValidRoles.

Inductive t : Type := admin | user | superUser.

(** the string value of each enum member *)
Definition value (r : t) : string :=
  match r with
  | admin => "admin"
  | user => "user"
  | superUser => "superUser"
  end.

End ValidRoles.

(** ** Entities *)

Module User.

(** Modelled from the spec: the User entity (users/entities/user.entity.ts)
    is not among the sources.  Its fields are the ones the spec lists and
    the services touch: identifier, full name, email, password, role set,
    active flag and the "last updated by" relation.  [password] is
    optional because [validateUser] deletes the property from the object
    it returns; a stored row always has it.  The lazy [lastUpdatedBy]
    relation is kept as the identifier of the user it points to. *)
Record t : Type := mk {
  id : string;
  fullName : string;
  email : string;
  password : option string;
  roles : list string;
  isActive : bool;
  lastUpdatedBy : option string
}.

End User.

(** ** The role gate: the [CurrentUser] parameter decorator *)

Module CurrentUserDecorator.

(** [roles.includes(role as ValidRoles)] *)
Definition includes (roles : list ValidRoles.t) (role : string) : bool :=
  existsb (fun q => String.eqb (ValidRoles.value q) role) roles.

(** the [for (const role of user.roles)] loop, returning at the first hit *)
Fixpoint for_roles (roles : list ValidRoles.t) (user : User.t)
    (userRoles : list string) : option User.t :=
  match userRoles with
  | [] => None
  | role :: rest =>
      if includes roles role then Some user else for_roles roles user rest
  end.

(** [data] is the decorator argument ([undefined] when the decorator is
    used as [@CurrentUser()]); [reqUser] is [ctx.getContext().req.user]. *)
Definition CurrentUser (data : option (list ValidRoles.t))
    (reqUser : option User.t) : Result User.t :=
  let roles := default [] data in
  match reqUser with
  | None =>
      throw (InternalServerErrorException
        "No user inside the request - make sure that we used the AuthGuard")
  | Some user =>
      if (length roles =? 0)%nat then ret user
      else match for_roles roles user (User.roles user) with
           | Some u => ret u
           | None =>
               throw (ForbiddenException
                 ("User " +:+ User.fullName user +:+ " need a valid role ["
                  +:+ Js.join "," (ValidRoles.value <$> roles) +:+ "]"))
           end
  end.

End CurrentUserDecorator.
Export CurrentUserDecorator.

(** ** The SQL the storage layer evaluates *)

Module Sql.

(** [s LIKE p] as PostgreSQL evaluates it: [%] matches any run of
    characters, [_] any single character, and a backslash makes the
    next pattern character literal.  A pattern ending in a lone
    backslash is rejected by the server; the services only build
    patterns that end in [%], for which [ends_in_escape] below is
    false, so that case never arises and is given [false] here. *)
Fixpoint like (p : string) : string -> bool :=
  match p with
  | EmptyString =>
      fun s => match s with EmptyString => true | String _ _ => false end
  | String c p' =>
      if Ascii.eqb c "%" then
        fix any (s : string) : bool :=
          like p' s
          || match s with EmptyString => false | String _ s' => any s' end
      else if Ascii.eqb c "_" then
        fun s => match s with EmptyString => false | String _ s' => like p' s' end
      else if Ascii.eqb c "\" then
        match p' with
        | EmptyString => fun _ => false
        | String d p'' =>
            fun s => match s with
                     | EmptyString => false
                     | String x s' => Ascii.eqb x d && like p'' s'
                     end
        end
      else
        fun s => match s with
                 | EmptyString => false
                 | String x s' => Ascii.eqb x c && like p' s'
                 end
  end.

(** the pattern ends in a backslash that escapes nothing *)
Fixpoint ends_in_escape (p : string) : bool :=
  match p with
  | EmptyString => false
  | String c p' =>
      if Ascii.eqb c "\" then
        match p' with
        | EmptyString => true
        | String _ p'' => ends_in_escape p''
        end
      else ends_in_escape p'
  end.

(** the pattern characters LIKE does not take literally *)
Definition is_wildcard (c : ascii) : bool :=
  Ascii.eqb c "%" || Ascii.eqb c "_" || Ascii.eqb c "\".

Fixpoint wildcard_free (s : string) : bool :=
  match s with
  | EmptyString => true
  | String c s' => negb (is_wildcard c) && wildcard_free s'
  end.

(** [xs && ys] on arrays: the two have an element in common *)
Definition overlaps (xs ys : list string) : bool :=
  existsb (fun x => existsb (String.eqb x) ys) xs.

(** the driver's error for a violated unique or primary-key constraint *)
Definition unique_violation (columns values : string) : Exception :=
  QueryFailedError "23505"
    ("Key (" +:+ columns +:+ ")=(" +:+ values +:+ ") already exists.").

(** SQL [LOWER] on ASCII text, under a collation that folds A-Z to a-z.
    It is the server's function, not JavaScript's: outside ASCII the two
    differ from each other and from this definition, which is only
    relied on for strings that satisfy [Js.is_ascii]. *)
Fixpoint lower (s : string) : string :=
  match s with
  | EmptyString => EmptyString
  | String c s' => String (Js.lower_char c) (lower s')
  end.

(** *** Reading text as a uuid

    PostgreSQL's input routine for the uuid type: an optional opening
    brace, sixteen bytes of two hexadecimal digits each, an optional
    hyphen after every second byte except the last, the closing brace
    when there was an opening one, and nothing more. *)
Definition is_xdigit (c : ascii) : bool :=
  let n := nat_of_ascii c in
  ((48 <=? n)%nat && (n <=? 57)%nat)
  || ((65 <=? n)%nat && (n <=? 70)%nat)
  || ((97 <=? n)%nat && (n <=? 102)%nat).

(** reads [remaining] bytes, the next one having index [i]; returns the
    digits read, in lower case, and the text left over *)
Fixpoint read_uuid_bytes (remaining i : nat) (src : string)
    : option (string * string) :=
  match remaining with
  | O => Some (EmptyString, src)
  | S remaining' =>
      match src with
      | String c1 (String c2 rest) =>
          if is_xdigit c1 && is_xdigit c2 then
            let rest :=
              match rest with
              | String c rest' =>
                  if Ascii.eqb c "-" && Nat.odd i && (i <? 15)%nat
                  then rest' else rest
              | EmptyString => rest
              end in
            match read_uuid_bytes remaining' (S i) rest with
            | Some (digits, tail) =>
                Some (String (Js.lower_char c1) (String (Js.lower_char c2) digits),
                      tail)
            | None => None
            end
          else None
      | _ => None
      end
  end.

(** the text the server prints for a uuid: 8-4-4-4-12 lower-case digits *)
Definition uuid_out (digits : string) : string :=
  String.substring 0 8 digits +:+ "-" +:+ String.substring 8 4 digits +:+ "-"
  +:+ String.substring 12 4 digits +:+ "-" +:+ String.substring 16 4 digits
  +:+ "-" +:+ String.substring 20 12 digits.

(** the uuid a text is read as, in its canonical text; [None] when the
    server rejects the text *)
Definition uuid_in (source : string) : option string :=
  let braces := match source with
                | String c _ => Ascii.eqb c "{"
                | EmptyString => false
                end in
  let src := if braces then Js.drop_chars 1 source else source in
  match read_uuid_bytes 16 0 src with
  | Some (digits, tail) =>
      if String.eqb tail (if braces then "}" else "")
      then Some (uuid_out digits) else None
  | None => None
  end.

(** the driver's error when a value compared with a uuid column does
    not parse; it carries no [detail] *)
Definition invalid_uuid (text : string) : Exception :=
  QueryFailedError "22P02" "".

Definition dquote : string := String (ascii_of_nat 34) EmptyString.

(** the driver's errors for a violated foreign key: a row that another
    table still points to may not be deleted, and a row may not point
    to a key that is absent *)
Definition still_referenced (id table : string) : Exception :=
  QueryFailedError "23503"
    ("Key (id)=(" +:+ id +:+ ") is still referenced from table "
     +:+ dquote +:+ table +:+ dquote +:+ ".").

Definition not_present (column value table : string) : Exception :=
  QueryFailedError "23503"
    ("Key (" +:+ column +:+ ")=(" +:+ value +:+ ") is not present in table "
     +:+ dquote +:+ table +:+ dquote +:+ ".").

End Sql.

(** ** The repository and query builder shared by the services *)

Module Repository.

Section Generic.

Context {R : Type}.

(** rows in the order a scan of the table returns them *)
Definition rows (db : gmap string R) : list R := (map_to_list db).*2.

(** [findOneBy({ id, ...rest })] once the server has read [id] as a
    uuid: the row under that primary key, if it also meets the remaining
    conditions; [null] otherwise *)
Definition findOneBy (id : string) (rest : R -> bool) (db : gmap string R)
    : option R :=
  match db !! id with
  | Some r => if rest r then Some r else None
  | None => None
  end.

(** the primary-key column of every row agrees with the key it is
    stored under *)
Definition keyed (key : R -> string) (db : gmap string R) : Prop :=
  map_Forall (fun k r => key r = k) db.

(** [count({ where })] *)
Definition count (where_ : R -> bool) (db : gmap string R) : nat :=
  length (filter (fun r => where_ r = true) (rows db)).

(** the text column [name] holds ASCII in every row *)
Definition ascii_column (name : R -> string) (db : gmap string R) : Prop :=
  map_Forall (fun _ r => Js.is_ascii (name r) = true) db.

End Generic.

End Repository.

Module QueryBuilder.

Record t (R : Type) : Type := mk {
  conditions : list (R -> bool);
  limit : option nat;
  offset : option nat
}.
Arguments mk {R}.
Arguments conditions {R}.
Arguments limit {R}.
Arguments offset {R}.

Section Select.

Context {R : Type}.

Definition createQueryBuilder : t R := mk [] None None.

Definition where_ (c : R -> bool) (qb : t R) : t R :=
  mk [c] (limit qb) (offset qb).

Definition andWhere (c : R -> bool) (qb : t R) : t R :=
  mk (conditions qb ++ [c]) (limit qb) (offset qb).

Definition take (n : nat) (qb : t R) : t R :=
  mk (conditions qb) (Some n) (offset qb).

Definition skip (n : nat) (qb : t R) : t R :=
  mk (conditions qb) (limit qb) (Some n).

Definition holds (qb : t R) (r : R) : bool :=
  forallb (fun c => c r) (conditions qb).

(** SELECT ... WHERE c1 AND c2 ... OFFSET skip LIMIT take.  The builder
    writes the LIMIT clause under [if (limit)], so a limit of 0 puts no
    LIMIT on the statement, like no limit at all. *)
Definition getMany (qb : t R) (db : gmap string R) : list R :=
  let matching := filter (fun r => holds qb r = true) (Repository.rows db) in
  let skipped := match offset qb with
                 | Some n => drop n matching
                 | None => matching
                 end in
  match limit qb with
  | Some (S n) => list.take (S n) skipped
  | Some O | None => skipped
  end.

(** [.limit(n)] and [.offset(n)]: on a query without joins they put the
    same LIMIT and OFFSET on the statement as [take] and [skip] *)
Definition limit_ (n : nat) (qb : t R) : t R :=
  mk (conditions qb) (Some n) (offset qb).

Definition offset_ (n : nat) (qb : t R) : t R :=
  mk (conditions qb) (limit qb) (Some n).

(** [getMany] over the rows a join has produced *)
Definition getManyOf (qb : t R) (joined : list R) : list R :=
  let matching := filter (fun r => holds qb r = true) joined in
  let skipped := match offset qb with
                 | Some n => drop n matching
                 | None => matching
                 end in
  match limit qb with
  | Some (S n) => list.take (S n) skipped
  | Some O | None => skipped
  end.

End Select.

End QueryBuilder.

(** ** Arguments of the listing queries *)

Module PaginationArgs.

(** [offset] and [limit] are GraphQL [Int]s validated with [@Min(0)] and
    [@Min(1)]; both default to 10 *)
Record t : Type := mk { offset : nat; limit : nat }.

Definition default : t := mk 10 10.

End PaginationArgs.

Module SearchArgs.

Record t : Type := mk { search : option string }.

End SearchArgs.

(** ** External collaborators: bcrypt and the JWT signer *)

Class Bcrypt : Type := {
  hashSync : string -> nat -> string;
  compareSync : string -> string -> bool
}.

(** The signer as one request sees it: [sign id] is the token issued for
    the payload [{ id }] at the instant of that request.  A token also
    carries its issue and expiry times, so tokens issued by different
    requests differ; no statement below compares the tokens of two
    requests. *)
Class JwtService : Type := {
  sign : string -> string
}.

(** ** The users table and [UsersService] *)

Module UsersRepository.

Definition findOneByOrFail_id (db : gmap string User.t) (id : string)
    : Result User.t :=
  match db !! id with
  | Some u => ret u
  | None => throw EntityNotFoundError
  end.

Definition findOneByOrFail_email (db : gmap string User.t) (email : string)
    : Result User.t :=
  match head (filter (fun u => User.email u = email) (Repository.rows db)) with
  | Some u => ret u
  | None => throw EntityNotFoundError
  end.

(** the unique constraint on [email]: some other row already holds it *)
Definition email_taken (db : gmap string User.t) (key email : string) : bool :=
  bool_decide
    (Exists (fun kv : string * User.t => kv.1 <> key /\ User.email kv.2 = email)
            (map_to_list db)).

(** no two rows share an email *)
Definition unique_emails (db : gmap string User.t) : Prop :=
  forall k1 k2 u1 u2,
    db !! k1 = Some u1 -> db !! k2 = Some u2 ->
    User.email u1 = User.email u2 -> k1 = k2.

(** a property that is [undefined] on the saved object is left out of
    the UPDATE, so the stored column keeps its value *)
Definition persisted (old : option User.t) (u : User.t) : User.t :=
  match User.password u, old with
  | None, Some o =>
      User.mk (User.id u) (User.fullName u) (User.email u) (User.password o)
              (User.roles u) (User.isActive u) (User.lastUpdatedBy u)
  | _, _ => u
  end.

(** [save] of an entity that carries its id: insert or update by primary key *)
Definition save (user : User.t) (db : gmap string User.t)
    : gmap string User.t * Result User.t :=
  let key := User.id user in
  if email_taken db key (User.email user)
  then (db, throw (Sql.unique_violation "email" (User.email user)))
  else (<[key := persisted (db !! key) user]> db, ret user).

(** [save] of a freshly created entity: the database draws [uuid] *)
Definition insert (uuid : string) (user : User.t) (db : gmap string User.t)
    : gmap string User.t * Result User.t :=
  let row := User.mk uuid (User.fullName user) (User.email user)
               (User.password user) (User.roles user) (User.isActive user)
               (User.lastUpdatedBy user) in
  match db !! uuid with
  | Some _ => (db, throw (Sql.unique_violation "id" uuid))
  | None => save row db
  end.

End UsersRepository.

Module SignUpInput.

(** Modelled from the spec: the sign-up DTO (auth/dto/inputs/signup.input.ts)
    is not among the sources; a user is created from an email, a full name
    and a password. *)
Record t : Type := mk { email : string; fullName : string; password : string }.

End SignUpInput.

Module UpdateUserInput.

(** Modelled from the spec: the update DTO (users/dto/inputs/update-user.input.ts)
    is not among the sources; it names the user by [id] and may carry any
    of the mutable fields of a user. *)
Record t : Type := mk {
  id : string;
  email : option string;
  fullName : option string;
  password : option string;
  roles : option (list string);
  isActive : option bool
}.

End UpdateUserInput.

Module UsersService.

Section WithDefaults.

(** Column defaults of the users table, declared in the entity file that
    is not among the sources. *)
Variable defaultRoles : list string.
Variable defaultIsActive : bool.

Context `{Bcrypt}.

Definition handleDBErrors {A : Type} (error : Exception) : Result A :=
  match error with
  | QueryFailedError code detail =>
      if String.eqb code "23505"
      then throw (BadRequestException (Js.replace "Key" "" detail))
      else throw (InternalServerErrorException "Please check server logs")
  | _ => throw (InternalServerErrorException "Please check server logs")
  end.

Definition create (uuid : string) (signUpInput : SignUpInput.t)
    (db : gmap string User.t) : gmap string User.t * Result User.t :=
  let newUser :=
    User.mk "" (SignUpInput.fullName signUpInput)
      (SignUpInput.email signUpInput)
      (Some (hashSync (SignUpInput.password signUpInput) 10))
      defaultRoles defaultIsActive None in
  match UsersRepository.insert uuid newUser db with
  | (db', inr u) => (db', ret u)
  | (db', inl error) => (db', handleDBErrors error)
  end.

(** [usersRepository.preload({ ...updateUserInput, id })] *)
Definition preload (id : string) (input : UpdateUserInput.t)
    (db : gmap string User.t) : option User.t :=
  match db !! id with
  | None => None
  | Some u =>
      Some (User.mk id
              (default (User.fullName u) (UpdateUserInput.fullName input))
              (default (User.email u) (UpdateUserInput.email input))
              (match UpdateUserInput.password input with
               | Some p => Some p
               | None => User.password u
               end)
              (default (User.roles u) (UpdateUserInput.roles input))
              (default (User.isActive u) (UpdateUserInput.isActive input))
              (User.lastUpdatedBy u))
  end.

Definition set_lastUpdatedBy (u updatedBy : User.t) : User.t :=
  User.mk (User.id u) (User.fullName u) (User.email u) (User.password u)
          (User.roles u) (User.isActive u) (Some (User.id updatedBy)).

Definition set_isActive (u : User.t) (b : bool) : User.t :=
  User.mk (User.id u) (User.fullName u) (User.email u) (User.password u)
          (User.roles u) b (User.lastUpdatedBy u).

Definition update (id : string) (updateUserInput : UpdateUserInput.t)
    (updatedBy : User.t) (db : gmap string User.t)
    : gmap string User.t * Result User.t :=
  match preload id updateUserInput db with
  | None =>
      (* thrown inside the [try], hence caught and handed to handleDBErrors *)
      (db, handleDBErrors
             (NotFoundException ("Item with id: " +:+ id +:+ " not found")))
  | Some user =>
      let user := set_lastUpdatedBy user updatedBy in
      match UsersRepository.save user db with
      | (db', inr u) => (db', ret u)
      | (db', inl error) => (db', handleDBErrors error)
      end
  end.

Definition findOneById (id : string) (db : gmap string User.t)
    : Result User.t :=
  match UsersRepository.findOneByOrFail_id db id with
  | inr u => ret u
  | inl _ => throw (NotFoundException (id +:+ " not found"))
  end.

Definition findOneByEmail (email : string) (db : gmap string User.t)
    : Result User.t :=
  match UsersRepository.findOneByOrFail_email db email with
  | inr u => ret u
  | inl _ => throw (NotFoundException (email +:+ " not found"))
  end.

Definition block (id : string) (adminUser : User.t) (db : gmap string User.t)
    : gmap string User.t * Result User.t :=
  match findOneById id db with
  | inl e => (db, inl e)
  | inr userToBlock =>
      let userToBlock := set_isActive userToBlock false in
      let userToBlock := set_lastUpdatedBy userToBlock adminUser in
      UsersRepository.save userToBlock db
  end.

(** the [users] listing: LIMIT and OFFSET first, then the optional role
    overlap and the optional search on the full name *)
Definition findAll (roles : list ValidRoles.t) (paginationArgs : PaginationArgs.t)
    (searchArgs : SearchArgs.t) (db : gmap string User.t) : list User.t :=
  let limit := PaginationArgs.limit paginationArgs in
  let offset := PaginationArgs.offset paginationArgs in
  let search := SearchArgs.search searchArgs in
  let queryBuilder :=
    QueryBuilder.offset_ offset
      (QueryBuilder.limit_ limit QueryBuilder.createQueryBuilder) in
  let queryBuilder :=
    if negb (length roles =? 0)%nat
    then QueryBuilder.andWhere
           (fun u => Sql.overlaps (User.roles u) (ValidRoles.value <$> roles))
           queryBuilder
    else queryBuilder in
  let queryBuilder :=
    match search with
    | Some s =>
        if Js.truthy_str s
        then QueryBuilder.andWhere
               (fun u => Sql.like ("%" +:+ Js.toLowerCase s +:+ "%")
                                  (Sql.lower (User.fullName u)))
               queryBuilder
        else queryBuilder
    | None => queryBuilder
    end in
  QueryBuilder.getMany queryBuilder db.

End WithDefaults.

End UsersService.

(** ** [AuthService], the JWT strategy and the auth resolver *)

Module AuthResponse.

Record t : Type := mk { token : string; user : User.t }.

End AuthResponse.

Module LoginInput.

(** Modelled from the spec: the login DTO (auth/dto/inputs/login.input.ts)
    is not among the sources; [login] destructures an email and a
    password from it. *)
Record t : Type := mk { email : string; password : string }.

End LoginInput.

Module JwtPayload.

Record t : Type := mk { id : string; iat : Z; exp : Z }.

End JwtPayload.

Module AuthService.

Section WithCollaborators.

Variable defaultRoles : list string.
Variable defaultIsActive : bool.
Context `{Bcrypt} `{JwtService}.

Definition getJwtToken (userId : string) : string := sign userId.

Definition signup (uuid : string) (signupInput : SignUpInput.t)
    (db : gmap string User.t) : gmap string User.t * Result AuthResponse.t :=
  match UsersService.create defaultRoles defaultIsActive uuid signupInput db with
  | (db', inr user) => (db', ret (AuthResponse.mk (getJwtToken (User.id user)) user))
  | (db', inl e) => (db', inl e)
  end.

(** [bcrypt.compareSync(password, user.password)]; bcrypt throws a plain
    error when the hash argument is [undefined] *)
Definition compare_stored (password : string) (stored : option string)
    : Result bool :=
  match stored with
  | Some h => ret (compareSync password h)
  | None => throw (JsError "data and hash arguments required")
  end.

Definition login (loginInput : LoginInput.t) (db : gmap string User.t)
    : Result AuthResponse.t :=
  user ← UsersService.findOneByEmail (LoginInput.email loginInput) db;
  matches ← compare_stored (LoginInput.password loginInput) (User.password user);
  if negb matches
  then throw (BadRequestException "Email / Password do not match")
  else ret (AuthResponse.mk (getJwtToken (User.id user)) user).

(** [delete user.password] *)
Definition delete_password (u : User.t) : User.t :=
  User.mk (User.id u) (User.fullName u) (User.email u) None
          (User.roles u) (User.isActive u) (User.lastUpdatedBy u).

Definition validateUser (id : string) (db : gmap string User.t)
    : Result User.t :=
  user ← UsersService.findOneById id db;
  if negb (User.isActive user)
  then throw (UnauthorizedException "User is inactive, talk with an admin")
  else ret (delete_password user).

Definition revalidateToken (user : User.t) : AuthResponse.t :=
  AuthResponse.mk (getJwtToken (User.id user)) user.

End WithCollaborators.

End AuthService.

Module JwtStrategy.

(** called by the passport strategy once the token's signature and
    expiry have been verified; what it returns becomes [req.user] *)
Definition validate (payload : JwtPayload.t) (db : gmap string User.t)
    : Result User.t :=
  AuthService.validateUser (JwtPayload.id payload) db.

End JwtStrategy.

Module AuthResolver.

Section WithCollaborators.

Context `{JwtService}.

(** the [revalidate] query: guarded by [JwtAuthGuard], then gated by
    [@CurrentUser([ValidRoles.admin])] *)
Definition revalidateToken (payload : JwtPayload.t) (db : gmap string User.t)
    : Result AuthResponse.t :=
  reqUser ← JwtStrategy.validate payload db;
  user ← CurrentUser (Some [ValidRoles.admin]) (Some reqUser);
  ret (AuthService.revalidateToken user).

End WithCollaborators.

End AuthResolver.

(** ** Items, lists and the list items that point to them *)

Module ListItem.

(** [listId] and [itemId] are the columns behind the lazy [list] and
    [item] relations, each a foreign key without ON DELETE action; the
    table carries the unique constraint [listItem-item] on the pair. *)
Record t : Type := mk {
  id : string;
  quantity : Z;
  completed : bool;
  listId : string;
  itemId : string
}.

End ListItem.

Module Item.

(** [userId] is the column behind the lazy [user] relation *)
Record t : Type := mk {
  id : string;
  name : string;
  quantityUnits : option string;
  userId : string
}.

End Item.

Module CreateItemInput.

Record t : Type := mk { name : string; quantityUnits : option string }.

End CreateItemInput.

Module UpdateItemInput.

(** Modelled from the spec: the item update DTO
    (items/dto/inputs/update-item.input.ts) is not among the sources; like
    its sibling for lists it is the partial create input plus the [id]. *)
Record t : Type := mk {
  id : string;
  name : option string;
  quantityUnits : option string
}.

End UpdateItemInput.

Module ItemsService.

Definition owned_by (user : User.t) (r : Item.t) : bool :=
  String.eqb (Item.userId r) (User.id user).

Definition create (uuid : string) (createItemInput : CreateItemInput.t)
    (user : User.t) (db : gmap string Item.t) : gmap string Item.t * Result Item.t :=
  let newItem := Item.mk uuid (CreateItemInput.name createItemInput)
                   (CreateItemInput.quantityUnits createItemInput)
                   (User.id user) in
  match db !! uuid with
  | Some _ => (db, throw (Sql.unique_violation "id" uuid))
  | None => (<[uuid := newItem]> db, ret newItem)
  end.

Definition findAll (user : User.t) (paginationArgs : PaginationArgs.t)
    (searchArgs : SearchArgs.t) (db : gmap string Item.t) : list Item.t :=
  let limit := PaginationArgs.limit paginationArgs in
  let offset := PaginationArgs.offset paginationArgs in
  let search := SearchArgs.search searchArgs in
  let queryBuilder :=
    QueryBuilder.skip offset
      (QueryBuilder.take limit
        (QueryBuilder.where_ (owned_by user) QueryBuilder.createQueryBuilder)) in
  let queryBuilder :=
    match search with
    | Some s =>
        if Js.truthy_str s
        then QueryBuilder.andWhere
               (fun r => Sql.like ("%" +:+ Js.toLowerCase s +:+ "%")
                                  (Sql.lower (Item.name r)))
               queryBuilder
        else queryBuilder
    | None => queryBuilder
    end in
  QueryBuilder.getMany queryBuilder db.

(** The query compares [id] with the uuid primary key: the server reads
    the text as a uuid first, and the query fails when it cannot.  The
    method has no [try], so that failure leaves it as it is. *)
Definition findOne (id : string) (user : User.t) (db : gmap string Item.t)
    : Result Item.t :=
  match Sql.uuid_in id with
  | None => throw (Sql.invalid_uuid id)
  | Some key =>
      let item := Repository.findOneBy key (owned_by user) db in
      match item with
      | None => throw (NotFoundException ("Item with id: " +:+ id +:+ " not found"))
      | Some item => ret item
      end
  end.

(** [itemsRepository.preload(updateItemInput)]: the row is looked up
    under the id carried by the input, and the input is laid over it.
    The row the query returns is paired with the input by comparing
    their id texts, so an id in another spelling than the stored one
    preloads nothing. *)
Definition preload (input : UpdateItemInput.t) (db : gmap string Item.t)
    : Result (option Item.t) :=
  match Sql.uuid_in (UpdateItemInput.id input) with
  | None => throw (Sql.invalid_uuid (UpdateItemInput.id input))
  | Some key =>
      ret (match db !! key with
           | None => None
           | Some r =>
               if String.eqb (Item.id r) (UpdateItemInput.id input) then
                 Some (Item.mk (UpdateItemInput.id input)
                         (default (Item.name r) (UpdateItemInput.name input))
                         (match UpdateItemInput.quantityUnits input with
                          | Some q => Some q
                          | None => Item.quantityUnits r
                          end)
                         (Item.userId r))
               else None
           end)
  end.

(** [itemsRepository.save(item)]: the entity manager loads the row the
    item's id names and pairs it with the item by comparing id texts.
    When they agree the row is overwritten; otherwise the item is taken
    for a new one and inserted, which the primary key refuses when the
    id names a stored row. *)
Definition save (item : Item.t) (db : gmap string Item.t)
    : gmap string Item.t * Result Item.t :=
  match Sql.uuid_in (Item.id item) with
  | None => (db, throw (Sql.invalid_uuid (Item.id item)))
  | Some key =>
      match db !! key with
      | Some r =>
          if String.eqb (Item.id r) (Item.id item)
          then (<[key := item]> db, ret item)
          else (db, throw (Sql.unique_violation "id" key))
      | None =>
          (<[key := Item.mk key (Item.name item) (Item.quantityUnits item)
                      (Item.userId item)]> db,
           ret item)
      end
  end.

Definition update (id : string) (updateItemInput : UpdateItemInput.t)
    (user : User.t) (db : gmap string Item.t)
    : gmap string Item.t * Result Item.t :=
  match findOne id user db with
  | inl e => (db, inl e)
  | inr _ =>
      match preload updateItemInput db with
      | inl e => (db, inl e)
      | inr None =>
          (db, throw (NotFoundException ("Item with id: " +:+ id +:+ " not found")))
      | inr (Some item) => save item db
      end
  end.

(** some list item points to the item *)
Definition referenced (id : string) (listItems : gmap string ListItem.t) : bool :=
  bool_decide (Exists (fun r => ListItem.itemId r = id) (Repository.rows listItems)).

(** [itemsRepository.remove(item)] issues the DELETE; the foreign key of
    the list items refuses it while a list item points to the item *)
Definition remove (id : string) (user : User.t)
    (listItems : gmap string ListItem.t) (db : gmap string Item.t)
    : gmap string Item.t * Result Item.t :=
  match findOne id user db with
  | inl e => (db, inl e)
  | inr item =>
      if referenced (Item.id item) listItems
      then (db, throw (Sql.still_referenced (Item.id item) "listItems"))
      else
        (delete (Item.id item) db,
         ret (Item.mk id (Item.name item) (Item.quantityUnits item)
                (Item.userId item)))
  end.

Definition itemCountByUser (user : User.t) (db : gmap string Item.t) : nat :=
  Repository.count (owned_by user) db.

End ItemsService.

(** ** Lists *)

Module List_.

Record t : Type := mk { id : string; name : string; userId : string }.

End List_.

Module CreateListInput.

Record t : Type := mk { name : string }.

End CreateListInput.

Module UpdateListInput.

Record t : Type := mk { id : string; name : option string }.

End UpdateListInput.

Module ListsService.

Definition owned_by (user : User.t) (r : List_.t) : bool :=
  String.eqb (List_.userId r) (User.id user).

Definition create (uuid : string) (createListInput : CreateListInput.t)
    (user : User.t) (db : gmap string List_.t)
    : gmap string List_.t * Result List_.t :=
  let newList := List_.mk uuid (CreateListInput.name createListInput)
                   (User.id user) in
  match db !! uuid with
  | Some _ => (db, throw (Sql.unique_violation "id" uuid))
  | None => (<[uuid := newList]> db, ret newList)
  end.

Definition findAll (user : User.t) (paginationArgs : PaginationArgs.t)
    (searchArgs : SearchArgs.t) (db : gmap string List_.t) : list List_.t :=
  let limit := PaginationArgs.limit paginationArgs in
  let offset := PaginationArgs.offset paginationArgs in
  let search := SearchArgs.search searchArgs in
  let queryBuilder :=
    QueryBuilder.skip offset
      (QueryBuilder.take limit
        (QueryBuilder.where_ (owned_by user) QueryBuilder.createQueryBuilder)) in
  let queryBuilder :=
    match search with
    | Some s =>
        if Js.truthy_str s
        then QueryBuilder.andWhere
               (fun r => Sql.like ("%" +:+ Js.toLowerCase s +:+ "%")
                                  (Sql.lower (List_.name r)))
               queryBuilder
        else queryBuilder
    | None => queryBuilder
    end in
  QueryBuilder.getMany queryBuilder db.

(** as for items: the id is read as a uuid by the server, and the
    failure to read it is not caught *)
Definition findOne (id : string) (user : User.t) (db : gmap string List_.t)
    : Result List_.t :=
  match Sql.uuid_in id with
  | None => throw (Sql.invalid_uuid id)
  | Some key =>
      let list := Repository.findOneBy key (owned_by user) db in
      match list with
      | None => throw (NotFoundException ("List with id: " +:+ id +:+ " not found"))
      | Some list => ret list
      end
  end.

(** [listRepository.preload(updateListInput)], as for items *)
Definition preload (input : UpdateListInput.t) (db : gmap string List_.t)
    : Result (option List_.t) :=
  match Sql.uuid_in (UpdateListInput.id input) with
  | None => throw (Sql.invalid_uuid (UpdateListInput.id input))
  | Some key =>
      ret (match db !! key with
           | None => None
           | Some r =>
               if String.eqb (List_.id r) (UpdateListInput.id input) then
                 Some (List_.mk (UpdateListInput.id input)
                         (default (List_.name r) (UpdateListInput.name input))
                         (List_.userId r))
               else None
           end)
  end.

(** [listRepository.save(list)], as for items *)
Definition save (list : List_.t) (db : gmap string List_.t)
    : gmap string List_.t * Result List_.t :=
  match Sql.uuid_in (List_.id list) with
  | None => (db, throw (Sql.invalid_uuid (List_.id list)))
  | Some key =>
      match db !! key with
      | Some r =>
          if String.eqb (List_.id r) (List_.id list)
          then (<[key := list]> db, ret list)
          else (db, throw (Sql.unique_violation "id" key))
      | None =>
          (<[key := List_.mk key (List_.name list) (List_.userId list)]> db,
           ret list)
      end
  end.

Definition update (id : string) (updateListInput : UpdateListInput.t)
    (user : User.t) (db : gmap string List_.t)
    : gmap string List_.t * Result List_.t :=
  match findOne id user db with
  | inl e => (db, inl e)
  | inr _ =>
      match preload updateListInput db with
      | inl e => (db, inl e)
      | inr None =>
          (db, throw (NotFoundException ("Item with id: " +:+ id +:+ " not found")))
      | inr (Some list) => save list db
      end
  end.

(** some list item points to the list *)
Definition referenced (id : string) (listItems : gmap string ListItem.t) : bool :=
  bool_decide (Exists (fun r => ListItem.listId r = id) (Repository.rows listItems)).

(** [listRepository.remove(list)]: refused by the foreign key of the
    list items while a list item points to the list *)
Definition remove (id : string) (user : User.t)
    (listItems : gmap string ListItem.t) (db : gmap string List_.t)
    : gmap string List_.t * Result List_.t :=
  match findOne id user db with
  | inl e => (db, inl e)
  | inr list =>
      if referenced (List_.id list) listItems
      then (db, throw (Sql.still_referenced (List_.id list) "listItems"))
      else
        (delete (List_.id list) db,
         ret (List_.mk id (List_.name list) (List_.userId list)))
  end.

Definition listCountByUser (user : User.t) (db : gmap string List_.t) : nat :=
  Repository.count (owned_by user) db.

End ListsService.

(** ** List items *)

Module CreateListItemInput.

Record t : Type := mk {
  quantity : Z;
  completed : bool;
  listId : string;
  itemId : string
}.

End CreateListItemInput.

Module UpdateListItemInput.

Record t : Type := mk {
  id : string;
  quantity : option Z;
  completed : option bool;
  listId : option string;
  itemId : option string
}.

End UpdateListItemInput.

Module ListItemsRepository.

(** the unique constraint on (list, item): a row under another key
    already holds the pair *)
Definition pair_taken (db : gmap string ListItem.t) (key listId itemId : string)
    : bool :=
  bool_decide
    (Exists (fun kv : string * ListItem.t =>
               kv.1 <> key /\ ListItem.listId kv.2 = listId
               /\ ListItem.itemId kv.2 = itemId)
            (map_to_list db)).

Definition unique_pairs (db : gmap string ListItem.t) : Prop :=
  forall k1 k2 r1 r2,
    db !! k1 = Some r1 -> db !! k2 = Some r2 ->
    ListItem.listId r1 = ListItem.listId r2 ->
    ListItem.itemId r1 = ListItem.itemId r2 ->
    k1 = k2.

Definition dquote : string := String (ascii_of_nat 34) EmptyString.

Definition pair_violation (listId itemId : string) : Exception :=
  Sql.unique_violation
    (dquote +:+ "listId" +:+ dquote +:+ ", " +:+ dquote +:+ "itemId" +:+ dquote)
    (listId +:+ ", " +:+ itemId).

(** [save] of a freshly created list item: the database draws [uuid].
    The unique indexes are checked as the row goes in, the foreign keys
    to [lists] and [items] when the statement ends; [listId] and
    [itemId] are the uuids as the server has read them. *)
Definition insert (uuid : string) (row : ListItem.t)
    (lists : gmap string List_.t) (items : gmap string Item.t)
    (db : gmap string ListItem.t)
    : gmap string ListItem.t * Result ListItem.t :=
  let row := ListItem.mk uuid (ListItem.quantity row) (ListItem.completed row)
               (ListItem.listId row) (ListItem.itemId row) in
  match db !! uuid with
  | Some _ => (db, throw (Sql.unique_violation "id" uuid))
  | None =>
      if pair_taken db uuid (ListItem.listId row) (ListItem.itemId row)
      then (db, throw (pair_violation (ListItem.listId row) (ListItem.itemId row)))
      else
        match lists !! ListItem.listId row, items !! ListItem.itemId row with
        | Some _, Some _ => (<[uuid := row]> db, ret row)
        | None, _ =>
            (db, throw (Sql.not_present "listId" (ListItem.listId row) "lists"))
        | Some _, None =>
            (db, throw (Sql.not_present "itemId" (ListItem.itemId row) "items"))
        end
  end.

(** UPDATE listItems SET ... WHERE id = :id.  No matching row is not an
    error: the statement then changes nothing. *)
Definition execute_update (id : string) (set : ListItem.t -> ListItem.t)
    (db : gmap string ListItem.t) : gmap string ListItem.t * Result unit :=
  match db !! id with
  | None => (db, ret ())
  | Some r =>
      let r' := set r in
      let others := delete id db in
      match others !! ListItem.id r' with
      | Some _ => (db, throw (Sql.unique_violation "id" (ListItem.id r')))
      | None =>
          if pair_taken others (ListItem.id r') (ListItem.listId r') (ListItem.itemId r')
          then (db, throw (pair_violation (ListItem.listId r') (ListItem.itemId r')))
          else (<[ListItem.id r' := r']> others, ret ())
      end
  end.

End ListItemsRepository.

Module ListItemService.

(** [findOneBy] is called without [await]: [listItem] is the pending
    promise, and the method resolves to whatever that promise resolves
    to, the row or [null].  [id] stands for a uuid the server has read;
    for a text that is no uuid the promise rejects with the driver's
    error, which is not the NotFound of the [if] either. *)
Definition findOne (id : string) (db : gmap string ListItem.t)
    : Result (option ListItem.t) :=
  let listItem := Js.resolves (Repository.findOneBy id (fun _ => true) db) in
  if negb (Js.truthy_promise listItem)
  then throw (NotFoundException ("List item with ID " +:+ id +:+ " not found"))
  else ret (Js.await listItem).

Definition create (uuid : string) (createListItemInput : CreateListItemInput.t)
    (lists : gmap string List_.t) (items : gmap string Item.t)
    (db : gmap string ListItem.t)
    : gmap string ListItem.t * Result (option ListItem.t) :=
  let newListItem :=
    ListItem.mk "" (CreateListItemInput.quantity createListItemInput)
      (CreateListItemInput.completed createListItemInput)
      (CreateListItemInput.listId createListItemInput)
      (CreateListItemInput.itemId createListItemInput) in
  match ListItemsRepository.insert uuid newListItem lists items db with
  | (db', inl e) => (db', inl e)
  | (db', inr saved) => (db', findOne (ListItem.id saved) db')
  end.

(** the object handed to [.set(...)]: the rest of the input (which still
    carries [id]) and the relations whose id is truthy *)
Definition set_of (input : UpdateListItemInput.t) (r : ListItem.t) : ListItem.t :=
  ListItem.mk (UpdateListItemInput.id input)
    (default (ListItem.quantity r) (UpdateListItemInput.quantity input))
    (default (ListItem.completed r) (UpdateListItemInput.completed input))
    (match UpdateListItemInput.listId input with
     | Some l => if Js.truthy_str l then l else ListItem.listId r
     | None => ListItem.listId r
     end)
    (match UpdateListItemInput.itemId input with
     | Some i => if Js.truthy_str i then i else ListItem.itemId r
     | None => ListItem.itemId r
     end).

Definition update (id : string) (updateListItemInput : UpdateListItemInput.t)
    (db : gmap string ListItem.t)
    : gmap string ListItem.t * Result (option ListItem.t) :=
  match ListItemsRepository.execute_update id (set_of updateListItemInput) db with
  | (db', inl e) => (db', inl e)
  | (db', inr _) => (db', findOne id db')
  end.


(** the rows of listItems INNER JOIN items ON the list item's [itemId] *)
Definition innerJoin_item (items : gmap string Item.t)
    (db : gmap string ListItem.t) : list (ListItem.t * Item.t) :=
  omap (fun listItem =>
          (fun item => (listItem, item)) <$> items !! ListItem.itemId listItem)
       (Repository.rows db).

Definition findAll (list : List_.t) (paginationArgs : PaginationArgs.t)
    (searchArgs : SearchArgs.t) (items : gmap string Item.t)
    (db : gmap string ListItem.t) : Datatypes.list ListItem.t :=
  let limit := PaginationArgs.limit paginationArgs in
  let offset := PaginationArgs.offset paginationArgs in
  let search := SearchArgs.search searchArgs in
  let queryBuilder :=
    QueryBuilder.where_
      (fun r : ListItem.t * Item.t =>
         String.eqb (ListItem.listId r.1) (List_.id list))
      (QueryBuilder.skip offset
        (QueryBuilder.take limit QueryBuilder.createQueryBuilder)) in
  let queryBuilder :=
    match search with
    | Some s =>
        if Js.truthy_str s
        then QueryBuilder.andWhere
               (fun r : ListItem.t * Item.t =>
                  Sql.like ("%" +:+ Js.toLowerCase s +:+ "%")
                           (Sql.lower (Item.name r.2)))
               queryBuilder
        else queryBuilder
    | None => queryBuilder
    end in
  fst <$> QueryBuilder.getManyOf queryBuilder (innerJoin_item items db).

End ListItemService.

(** ** Resolvers behind the JWT guard *)

Module ValidRolesArgs.

Record t : Type := mk { roles : list ValidRoles.t }.

End ValidRolesArgs.

Module JwtAuthGuard.

(** What a parameter decorated with [@CurrentUser(roles)] receives in a
    resolver guarded by [JwtAuthGuard]: the guard has the strategy
    validate the token's payload and attaches the user to the request,
    then the decorator applies the role gate. *)
Definition currentUser (roles : option (list ValidRoles.t))
    (payload : JwtPayload.t) (users : gmap string User.t) : Result User.t :=
  reqUser ← JwtStrategy.validate payload users;
  CurrentUser roles (Some reqUser).

End JwtAuthGuard.

Module UsersResolver.

Definition findAll (payload : JwtPayload.t) (validRoles : ValidRolesArgs.t)
    (paginationArgs : PaginationArgs.t) (searchArgs : SearchArgs.t)
    (users : gmap string User.t) : Result (list User.t) :=
  _user ← JwtAuthGuard.currentUser
            (Some [ValidRoles.admin; ValidRoles.superUser]) payload users;
  ret (UsersService.findAll (ValidRolesArgs.roles validRoles)
         paginationArgs searchArgs users).

Definition updateUser (payload : JwtPayload.t)
    (updateUserInput : UpdateUserInput.t) (users : gmap string User.t)
    : gmap string User.t * Result User.t :=
  match JwtAuthGuard.currentUser (Some [ValidRoles.admin]) payload users with
  | inl e => (users, inl e)
  | inr _user =>
      UsersService.update (UpdateUserInput.id updateUserInput)
        updateUserInput _user users
  end.

(** field resolvers: [user] is the parent object being resolved *)
Definition itemCount (payload : JwtPayload.t) (user : User.t)
    (users : gmap string User.t) (items : gmap string Item.t) : Result nat :=
  adminUser ← JwtAuthGuard.currentUser (Some [ValidRoles.admin]) payload users;
  ret (ItemsService.itemCountByUser user items).

Definition getItemsByUser (payload : JwtPayload.t) (user : User.t)
    (paginationArgs : PaginationArgs.t) (searchArgs : SearchArgs.t)
    (users : gmap string User.t) (items : gmap string Item.t)
    : Result (list Item.t) :=
  adminUser ← JwtAuthGuard.currentUser (Some [ValidRoles.admin]) payload users;
  ret (ItemsService.findAll user paginationArgs searchArgs items).

Definition getListsByUser (payload : JwtPayload.t) (user : User.t)
    (paginationArgs : PaginationArgs.t) (searchArgs : SearchArgs.t)
    (users : gmap string User.t) (lists : gmap string List_.t)
    : Result (list List_.t) :=
  adminUser ← JwtAuthGuard.currentUser (Some [ValidRoles.admin]) payload users;
  ret (ListsService.findAll user paginationArgs searchArgs lists).

Definition listCount (payload : JwtPayload.t) (user : User.t)
    (users : gmap string User.t) (lists : gmap string List_.t) : Result nat :=
  adminUser ← JwtAuthGuard.currentUser (Some [ValidRoles.admin]) payload users;
  ret (ListsService.listCountByUser user lists).

End UsersResolver.

Module ListsResolver.

Definition createList (payload : JwtPayload.t) (uuid : string)
    (createListInput : CreateListInput.t)
    (users : gmap string User.t) (lists : gmap string List_.t)
    : gmap string List_.t * Result List_.t :=
  match JwtAuthGuard.currentUser None payload users with
  | inl e => (lists, inl e)
  | inr user => ListsService.create uuid createListInput user lists
  end.

Definition findAll (payload : JwtPayload.t) (paginationArgs : PaginationArgs.t)
    (searchArgs : SearchArgs.t)
    (users : gmap string User.t) (lists : gmap string List_.t)
    : Result (list List_.t) :=
  user ← JwtAuthGuard.currentUser None payload users;
  ret (ListsService.findAll user paginationArgs searchArgs lists).

Definition updateList (payload : JwtPayload.t)
    (updateListInput : UpdateListInput.t)
    (users : gmap string User.t) (lists : gmap string List_.t)
    : gmap string List_.t * Result List_.t :=
  match JwtAuthGuard.currentUser None payload users with
  | inl e => (lists, inl e)
  | inr user =>
      ListsService.update (UpdateListInput.id updateListInput)
        updateListInput user lists
  end.

(** [id] comes as the client sent it: this mutation puts no pipe on
    the argument *)
Definition removeList (payload : JwtPayload.t) (id : string)
    (users : gmap string User.t) (listItems : gmap string ListItem.t)
    (lists : gmap string List_.t)
    : gmap string List_.t * Result List_.t :=
  match JwtAuthGuard.currentUser None payload users with
  | inl e => (lists, inl e)
  | inr user => ListsService.remove id user listItems lists
  end.

End ListsResolver.

(** ** The listing contract in the words of the specification *)

Module Spec.

(** [needle] occurs in [s] as a contiguous run of characters *)
Fixpoint includes (needle s : string) : bool :=
  Js.is_prefix needle s
  || match s with
     | EmptyString => false
     | String _ s' => includes needle s'
     end.

(** case-insensitive substring match of the search term, when one is
    given, on the record's name *)
Definition search_matches (search : option string) (name : string) : bool :=
  match search with
  | None => true
  | Some term => includes (Js.toLowerCase term) (Js.toLowerCase name)
  end.

Section Listing.

Context {R : Type} (owner name : R -> string).

(** the records owned by [U] that match the search, in table order *)
Definition matching (U : User.t) (search : option string) (db : gmap string R)
    : list R :=
  filter (fun r => owner r = User.id U /\ search_matches search (name r) = true)
         (Repository.rows db).

(** ... sliced by offset, then limit *)
Definition findAll (U : User.t) (paginationArgs : PaginationArgs.t)
    (search : option string) (db : gmap string R) : list R :=
  take (PaginationArgs.limit paginationArgs)
       (drop (PaginationArgs.offset paginationArgs) (matching U search db)).

End Listing.

End Spec.

(** ** Concrete data used to exercise the statements below *)

Module Fixtures.

Definition alice : User.t :=
  User.mk "00000000-0000-4000-8000-0000000000a1" "Alice" "alice@example.com"
          (Some "hash(wonderland)") ["user"] true None.

Definition bob : User.t :=
  User.mk "00000000-0000-4000-8000-0000000000b2" "Bob" "bob@example.com"
          (Some "hash(builder)") ["admin"] true None.

Definition users : gmap string User.t :=
  <["00000000-0000-4000-8000-0000000000b2" := bob]>
    (<["00000000-0000-4000-8000-0000000000a1" := alice]> ∅).

(** stand-ins for the two collaborators, enough to run the services *)
Definition bcrypt : Bcrypt :=
  {| hashSync := fun pw _ => "hash(" +:+ pw +:+ ")";
     compareSync := fun pw h => String.eqb ("hash(" +:+ pw +:+ ")") h |}.

Definition jwt : JwtService := {| sign := fun id => "jwt:" +:+ id |}.

(** Alice owns the item and the list called abc, Bob the others *)
Definition items : gmap string Item.t :=
  <["11111111-1111-4111-8111-111111111102" :=
      Item.mk "11111111-1111-4111-8111-111111111102" "Milk" None
        "00000000-0000-4000-8000-0000000000b2"]>
    (<["11111111-1111-4111-8111-111111111101" :=
         Item.mk "11111111-1111-4111-8111-111111111101" "abc" (Some "kg")
           "00000000-0000-4000-8000-0000000000a1"]> ∅).

Definition lists : gmap string List_.t :=
  <["22222222-2222-4222-8222-222222222202" :=
      List_.mk "22222222-2222-4222-8222-222222222202" "Groceries"
        "00000000-0000-4000-8000-0000000000b2"]>
    (<["22222222-2222-4222-8222-222222222201" :=
         List_.mk "22222222-2222-4222-8222-222222222201" "abc"
           "00000000-0000-4000-8000-0000000000a1"]> ∅).

(** Alice's item on Alice's list *)
Definition groceries : CreateListItemInput.t :=
  CreateListItemInput.mk 2 false "22222222-2222-4222-8222-222222222201"
    "11111111-1111-4111-8111-111111111101".

(** one list item: Bob's Milk on Bob's Groceries *)
Definition listItems : gmap string ListItem.t :=
  <["33333333-3333-4333-8333-333333333309" :=
      ListItem.mk "33333333-3333-4333-8333-333333333309" 1 false
        "22222222-2222-4222-8222-222222222202"
        "11111111-1111-4111-8111-111111111102"]> ∅.

End Fixtures.

(** * Properties *)

(** unfold [+:+] on the constructors of its first argument *)
Ltac norm_append :=
  repeat match goal with
  | H : context [String.append EmptyString ?s] |- _ =>
      change (String.append EmptyString s) with s in H
  | H : context [String.append (String ?c ?p) ?s] |- _ =>
      change (String.append (String c p) s)
        with (String c (String.append p s)) in H
  | |- context [String.append EmptyString ?s] =>
      change (String.append EmptyString s) with s
  | |- context [String.append (String ?c ?p) ?s] =>
      change (String.append (String c p) s)
        with (String c (String.append p s))
  end.

(** ** The role gate *)

Lemma includes_spec (Q : list ValidRoles.t) (role : string) :
  includes Q role = true <-> role ∈ (ValidRoles.value <$> Q).
Proof.
  unfold includes. rewrite existsb_exists. split.
  - intros (q & Hq & Heq). apply String.eqb_eq in Heq. subst role.
    apply list_elem_of_fmap. exists q. split; [done|].
    by apply list_elem_of_In.
  - intros (q & -> & Hq)%list_elem_of_fmap. exists q. split.
    + by apply list_elem_of_In.
    + apply String.eqb_refl.
Qed.

Lemma for_roles_Some (Q : list ValidRoles.t) (u : User.t) (R : list string) :
  (exists r, r ∈ R /\ r ∈ (ValidRoles.value <$> Q)) ->
  for_roles Q u R = Some u.
Proof.
  induction R as [|role R IH]; intros (r & Hr & HQ).
  - by apply elem_of_nil in Hr.
  - simpl. destruct (includes Q role) eqn:Hinc; [done|].
    apply IH. apply elem_of_cons in Hr as [->|Hr].
    + apply includes_spec in HQ. congruence.
    + eauto.
Qed.

Lemma for_roles_None (Q : list ValidRoles.t) (u : User.t) (R : list string) :
  ~ (exists r, r ∈ R /\ r ∈ (ValidRoles.value <$> Q)) ->
  for_roles Q u R = None.
Proof.
  induction R as [|role R IH]; intros Hno; [done|].
  simpl. destruct (includes Q role) eqn:Hinc.
  - exfalso. apply Hno. exists role. split; [apply elem_of_cons; by left|].
    by apply includes_spec.
  - apply IH. intros (r & Hr & HQ). apply Hno. exists r.
    split; [apply elem_of_cons; by right|done].
Qed.

Lemma for_roles_inv (Q : list ValidRoles.t) (u v : User.t) (R : list string) :
  for_roles Q u R = Some v ->
  v = u /\ exists r, r ∈ R /\ r ∈ (ValidRoles.value <$> Q).
Proof.
  induction R as [|role R IH]; [done|]. simpl.
  destruct (includes Q role) eqn:Hinc.
  - intros [= <-]. split; [done|]. exists role.
    split; [apply elem_of_cons; by left|by apply includes_spec].
  - intros Hv. destruct (IH Hv) as (-> & r & Hr & HQ). split; [done|].
    exists r. split; [apply elem_of_cons; by right|done].
Qed.

Example role_gate_user_on_admin_operation :
  CurrentUser (Some [ValidRoles.admin; ValidRoles.superUser]) (Some Fixtures.alice)
  = inl (ForbiddenException "User Alice need a valid role [admin,superUser]").
Proof. reflexivity. Qed.

Example role_gate_admin_on_admin_operation :
  CurrentUser (Some [ValidRoles.admin]) (Some Fixtures.bob) = inr Fixtures.bob.
Proof. reflexivity. Qed.

Lemma append_assoc (a b c : string) : (a +:+ b) +:+ c = a +:+ (b +:+ c).
Proof. induction a as [|x a IH]; [done|]. norm_append. by rewrite IH. Qed.

Lemma append_empty_r (a : string) : a +:+ "" = a.
Proof. induction a as [|x a IH]; [done|]. norm_append. by rewrite IH. Qed.

(** every element of a joined array occurs in the text *)
Lemma join_occurs (sep x : string) (xs : list string) :
  x ∈ xs -> exists pre post, Js.join sep xs = pre +:+ x +:+ post.
Proof.
  induction xs as [|y [|z rest] IH]; intros Hin.
  - by apply elem_of_nil in Hin.
  - apply list_elem_of_singleton in Hin as ->. exists "", "".
    simpl. by rewrite append_empty_r.
  - apply elem_of_cons in Hin as [->|Hin].
    + by exists "", (sep +:+ Js.join sep (z :: rest)).
    + destruct (IH Hin) as (pre & post & Hjoin).
      exists (y +:+ sep +:+ pre), post.
      change (Js.join sep (y :: z :: rest))
        with (y +:+ sep +:+ Js.join sep (z :: rest)).
      rewrite Hjoin. by rewrite !append_assoc.
Qed.

(** C5. The role gate is decided by the requester's role set R and the
    required-role set Q alone.  Without a user on the request it throws
    the Internal error.  With a user, access is granted (the user is
    returned) exactly when Q is empty or R and Q share a role; otherwise
    it throws Forbidden with a message naming the requester's full name
    and the required roles: the full name and the name of every role of
    Q occur in the message.  For instance a user called Alice who only
    holds the role user is refused on an operation for admin and
    superUser with the message
    User Alice need a valid role [admin,superUser]. *)
Theorem CurrentUser_role_gate (data : option (list ValidRoles.t))
    (reqUser : option User.t) :
  let Q := default [] data in
  match reqUser with
  | None =>
      CurrentUser data reqUser =
        inl (InternalServerErrorException
          "No user inside the request - make sure that we used the AuthGuard")
  | Some u =>
      let granted :=
        Q = [] \/ exists r, r ∈ User.roles u /\ r ∈ (ValidRoles.value <$> Q) in
      (granted <-> CurrentUser data reqUser = inr u) /\
      (~ granted <->
         CurrentUser data reqUser =
           inl (ForbiddenException
             ("User " +:+ User.fullName u +:+ " need a valid role ["
              +:+ Js.join "," (ValidRoles.value <$> Q) +:+ "]"))) /\
      (forall e, CurrentUser data reqUser = inl e ->
         exists message,
           e = ForbiddenException message /\
           (exists pre post, message = pre +:+ User.fullName u +:+ post) /\
           (forall q, q ∈ Q ->
              exists pre post, message = pre +:+ ValidRoles.value q +:+ post))
  end /\
  CurrentUser (Some [ValidRoles.admin; ValidRoles.superUser])
    (Some (User.mk "00000000-0000-4000-8000-0000000000a1" "Alice"
             "alice@example.com" (Some "hash(wonderland)") ["user"] true None))
  = inl (ForbiddenException "User Alice need a valid role [admin,superUser]").
Proof.
  intros Q. split; [|reflexivity].
  destruct reqUser as [u|]; [|reflexivity].
  intros granted.
  assert (Hmessage : forall e,
    e = ForbiddenException
          ("User " +:+ User.fullName u +:+ " need a valid role ["
           +:+ Js.join "," (ValidRoles.value <$> Q) +:+ "]") ->
    exists message,
      e = ForbiddenException message /\
      (exists pre post, message = pre +:+ User.fullName u +:+ post) /\
      (forall q, q ∈ Q ->
         exists pre post, message = pre +:+ ValidRoles.value q +:+ post)).
  { intros e ->. eexists. split; [reflexivity|]. split.
    - by exists "User ",
        (" need a valid role [" +:+ Js.join "," (ValidRoles.value <$> Q) +:+ "]").
    - intros q Hq.
      destruct (join_occurs "," (ValidRoles.value q) (ValidRoles.value <$> Q))
        as (pre & post & Hjoin).
      { apply list_elem_of_fmap. by exists q. }
      exists ("User " +:+ User.fullName u +:+ " need a valid role [" +:+ pre),
             (post +:+ "]").
      rewrite Hjoin. by rewrite !append_assoc. }
  revert Hmessage. unfold CurrentUser. fold Q. subst granted.
  destruct Q as [|q Q'] eqn:HQ; intros Hmessage.
  - simpl. split; [split; [done|intros _; by left]|].
    split; [|discriminate].
    split; [intros Hn; exfalso; apply Hn; by left|discriminate].
  - change (length (q :: Q') =? 0)%nat with false. cbv iota.
    destruct (for_roles (q :: Q') u (User.roles u)) as [v|] eqn:Hfor.
    + destruct (for_roles_inv _ _ _ _ Hfor) as [-> Hex].
      split; [split; [done|intros _; by right]|].
      split; [|discriminate].
      split; [intros Hn; exfalso; apply Hn; by right|discriminate].
    + assert (Hno : ~ exists r, r ∈ User.roles u
                       /\ r ∈ (ValidRoles.value <$> q :: Q')).
      { intros Hex. rewrite (for_roles_Some _ u _ Hex) in Hfor. discriminate. }
      split; [split; [intros [?|?]; [discriminate|done]|discriminate]|].
      split; [|intros e [= <-]; by apply Hmessage].
      split; [done|]. intros _ [?|?]; [discriminate|done].
Qed.

(** ** Ownership-scoped reads *)

Lemma items_owned_by_spec (U : User.t) (r : Item.t) :
  ItemsService.owned_by U r = true <-> Item.userId r = User.id U.
Proof. apply String.eqb_eq. Qed.

Lemma lists_owned_by_spec (U : User.t) (r : List_.t) :
  ListsService.owned_by U r = true <-> List_.userId r = User.id U.
Proof. apply String.eqb_eq. Qed.

Lemma findOneBy_Some {R : Type} (id : string) (rest : R -> bool)
    (db : gmap string R) (r : R) :
  Repository.findOneBy id rest db = Some r <-> db !! id = Some r /\ rest r = true.
Proof.
  unfold Repository.findOneBy. destruct (db !! id) as [r'|].
  - destruct (rest r') eqn:Hrest.
    + split; [intros [= <-]; done|intros [[= <-] _]; done].
    + split; [discriminate|intros [[= <-] Hr]; congruence].
  - split; [discriminate|intros [? _]; discriminate].
Qed.

Lemma findOneBy_None {R : Type} (id : string) (rest : R -> bool)
    (db : gmap string R) :
  Repository.findOneBy id rest db = None <->
  ~ exists r, db !! id = Some r /\ rest r = true.
Proof.
  rewrite eq_None_not_Some. unfold is_Some.
  split; intros Hn [r Hr]; apply Hn; exists r; by apply findOneBy_Some.
Qed.

Example uuid_in_canonical_text :
  Sql.uuid_in "11111111-1111-4111-8111-111111111101"
  = Some "11111111-1111-4111-8111-111111111101".
Proof. reflexivity. Qed.

Example uuid_in_other_spellings :
  Sql.uuid_in "{A0EEBC99-9C0B-4EF8-BB6D-6BB9BD380A11}"
  = Some "a0eebc99-9c0b-4ef8-bb6d-6bb9bd380a11" /\
  Sql.uuid_in "a0eebc999c0b4ef8bb6d6bb9bd380a11"
  = Some "a0eebc99-9c0b-4ef8-bb6d-6bb9bd380a11" /\
  Sql.uuid_in "a0ee-bc99-9c0b-4ef8-bb6d-6bb9-bd38-0a11"
  = Some "a0eebc99-9c0b-4ef8-bb6d-6bb9bd380a11".
Proof. repeat split. Qed.

Example uuid_in_rejects :
  Sql.uuid_in "42" = None /\
  Sql.uuid_in "" = None /\
  Sql.uuid_in "a0eebc99-9c0b-4ef8-bb6d-6bb9bd380a1" = None /\
  Sql.uuid_in "a0eebc99-9c0b-4ef8-bb6d-6bb9bd380a11 " = None /\
  Sql.uuid_in "a0eebc99-9c0b-4ef8-bb6d-6bb9bd380a1g" = None /\
  Sql.uuid_in "a-0eebc99-9c0b-4ef8-bb6d-6bb9bd380a11" = None /\
  Sql.uuid_in "{a0eebc99-9c0b-4ef8-bb6d-6bb9bd380a11" = None.
Proof. repeat split. Qed.

Lemma items_findOne_ok (id key : string) (U : User.t) (db : gmap string Item.t)
    (r : Item.t) :
  Sql.uuid_in id = Some key ->
  ItemsService.findOne id U db = inr r <->
  db !! key = Some r /\ Item.userId r = User.id U.
Proof.
  intros Hid.
  rewrite <- items_owned_by_spec, <- findOneBy_Some. unfold ItemsService.findOne.
  rewrite Hid. destruct (Repository.findOneBy _ _ _) as [r'|].
  - split; intros [= <-]; done.
  - split; discriminate.
Qed.

Lemma lists_findOne_ok (id key : string) (U : User.t) (db : gmap string List_.t)
    (r : List_.t) :
  Sql.uuid_in id = Some key ->
  ListsService.findOne id U db = inr r <->
  db !! key = Some r /\ List_.userId r = User.id U.
Proof.
  intros Hid.
  rewrite <- lists_owned_by_spec, <- findOneBy_Some. unfold ListsService.findOne.
  rewrite Hid. destruct (Repository.findOneBy _ _ _) as [r'|].
  - split; intros [= <-]; done.
  - split; discriminate.
Qed.

Lemma items_findOne_fails (id key : string) (U : User.t)
    (db : gmap string Item.t) :
  Sql.uuid_in id = Some key ->
  ItemsService.findOne id U db
    = inl (NotFoundException ("Item with id: " +:+ id +:+ " not found")) <->
  ~ exists r, db !! key = Some r /\ Item.userId r = User.id U.
Proof.
  intros Hid.
  transitivity (Repository.findOneBy key (ItemsService.owned_by U) db = None).
  - unfold ItemsService.findOne. rewrite Hid.
    destruct (Repository.findOneBy _ _ _); split; done.
  - rewrite findOneBy_None. by setoid_rewrite items_owned_by_spec.
Qed.

Lemma lists_findOne_fails (id key : string) (U : User.t)
    (db : gmap string List_.t) :
  Sql.uuid_in id = Some key ->
  ListsService.findOne id U db
    = inl (NotFoundException ("List with id: " +:+ id +:+ " not found")) <->
  ~ exists r, db !! key = Some r /\ List_.userId r = User.id U.
Proof.
  intros Hid.
  transitivity (Repository.findOneBy key (ListsService.owned_by U) db = None).
  - unfold ListsService.findOne. rewrite Hid.
    destruct (Repository.findOneBy _ _ _); split; done.
  - rewrite findOneBy_None. by setoid_rewrite lists_owned_by_spec.
Qed.

Lemma items_findOne_malformed (id : string) (U : User.t)
    (db : gmap string Item.t) :
  Sql.uuid_in id = None ->
  ItemsService.findOne id U db = inl (Sql.invalid_uuid id).
Proof. intros Hid. unfold ItemsService.findOne. by rewrite Hid. Qed.

Lemma lists_findOne_malformed (id : string) (U : User.t)
    (db : gmap string List_.t) :
  Sql.uuid_in id = None ->
  ListsService.findOne id U db = inl (Sql.invalid_uuid id).
Proof. intros Hid. unfold ListsService.findOne. by rewrite Hid. Qed.

(** what [findOne] returns is stored, under the key the id reads as *)
Lemma items_findOne_inv (id : string) (U : User.t) (db : gmap string Item.t)
    (r : Item.t) :
  ItemsService.findOne id U db = inr r ->
  exists key, Sql.uuid_in id = Some key /\ db !! key = Some r
              /\ Item.userId r = User.id U.
Proof.
  destruct (Sql.uuid_in id) as [key|] eqn:Hid.
  - intros Hr. exists key. split; [done|]. by apply (items_findOne_ok id key).
  - by rewrite items_findOne_malformed.
Qed.

Lemma lists_findOne_inv (id : string) (U : User.t) (db : gmap string List_.t)
    (r : List_.t) :
  ListsService.findOne id U db = inr r ->
  exists key, Sql.uuid_in id = Some key /\ db !! key = Some r
              /\ List_.userId r = User.id U.
Proof.
  destruct (Sql.uuid_in id) as [key|] eqn:Hid.
  - intros Hr. exists key. split; [done|]. by apply (lists_findOne_ok id key).
  - by rewrite lists_findOne_malformed.
Qed.

(** C1 (amended).  For an id that the database reads as a uuid, let
    [key] be that uuid.  [findOne] on items and on lists throws NotFound
    exactly when the table holds no record under [key] owned by the
    requesting user, and returns the record otherwise.  When the record
    exists under another owner the outcome is the very one obtained from
    the table with that record deleted: the same NotFound as for an id
    that does not exist. *)
Theorem findOne_scoped_to_owner (id key : string) (U : User.t)
    (items : gmap string Item.t) (lists : gmap string List_.t) :
  Sql.uuid_in id = Some key ->
  (ItemsService.findOne id U items
     = inl (NotFoundException ("Item with id: " +:+ id +:+ " not found")) <->
   ~ exists r, items !! key = Some r /\ Item.userId r = User.id U) /\
  (ListsService.findOne id U lists
     = inl (NotFoundException ("List with id: " +:+ id +:+ " not found")) <->
   ~ exists r, lists !! key = Some r /\ List_.userId r = User.id U) /\
  (forall r, items !! key = Some r /\ Item.userId r = User.id U <->
             ItemsService.findOne id U items = inr r) /\
  (forall r, lists !! key = Some r /\ List_.userId r = User.id U <->
             ListsService.findOne id U lists = inr r) /\
  (forall r, items !! key = Some r -> Item.userId r <> User.id U ->
             ItemsService.findOne id U items
               = ItemsService.findOne id U (delete key items)) /\
  (forall r, lists !! key = Some r -> List_.userId r <> User.id U ->
             ListsService.findOne id U lists
               = ListsService.findOne id U (delete key lists)).
Proof.
  intros Hid.
  split; [by apply items_findOne_fails|].
  split; [by apply lists_findOne_fails|].
  split; [intros r; symmetry; by apply items_findOne_ok|].
  split; [intros r; symmetry; by apply lists_findOne_ok|].
  split; intros r Hr Hother.
  - transitivity (inl (NotFoundException ("Item with id: " +:+ id +:+ " not found"))
                  : Result Item.t).
    + apply (items_findOne_fails id key); [done|].
      intros (r' & Hr' & Hown). congruence.
    + symmetry. apply (items_findOne_fails id key); [done|].
      intros (r' & Hr' & _). by rewrite lookup_delete_eq in Hr'.
  - transitivity (inl (NotFoundException ("List with id: " +:+ id +:+ " not found"))
                  : Result List_.t).
    + apply (lists_findOne_fails id key); [done|].
      intros (r' & Hr' & Hown). congruence.
    + symmetry. apply (lists_findOne_fails id key); [done|].
      intros (r' & Hr' & _). by rewrite lookup_delete_eq in Hr'.
Qed.

(** Alice asks for Bob's item and Bob's list, and for an id nobody has:
    the three answers are NotFound; an other spelling of her own item's
    id finds it. *)
Lemma findOne_scoped_to_owner_witness :
  ItemsService.findOne "11111111-1111-4111-8111-111111111102" Fixtures.alice
    Fixtures.items
  = inl (NotFoundException
      "Item with id: 11111111-1111-4111-8111-111111111102 not found") /\
  ListsService.findOne "22222222-2222-4222-8222-222222222202" Fixtures.alice
    Fixtures.lists
  = inl (NotFoundException
      "List with id: 22222222-2222-4222-8222-222222222202 not found") /\
  ItemsService.findOne "11111111-1111-4111-8111-111111111103" Fixtures.alice
    Fixtures.items
  = inl (NotFoundException
      "Item with id: 11111111-1111-4111-8111-111111111103 not found") /\
  ItemsService.findOne "{11111111111141118111111111111101}" Fixtures.alice
    Fixtures.items
  = inr (Item.mk "11111111-1111-4111-8111-111111111101" "abc" (Some "kg")
           "00000000-0000-4000-8000-0000000000a1").
Proof.
  split; [|split; [|split]].
  - apply (findOne_scoped_to_owner "11111111-1111-4111-8111-111111111102"
             "11111111-1111-4111-8111-111111111102" Fixtures.alice
             Fixtures.items Fixtures.lists); [reflexivity|].
    intros (r & Hr & Hown). vm_compute in Hr. injection Hr as <-.
    discriminate Hown.
  - apply (findOne_scoped_to_owner "22222222-2222-4222-8222-222222222202"
             "22222222-2222-4222-8222-222222222202" Fixtures.alice
             Fixtures.items Fixtures.lists); [reflexivity|].
    intros (r & Hr & Hown). vm_compute in Hr. injection Hr as <-.
    discriminate Hown.
  - apply (findOne_scoped_to_owner "11111111-1111-4111-8111-111111111103"
             "11111111-1111-4111-8111-111111111103" Fixtures.alice
             Fixtures.items Fixtures.lists); [reflexivity|].
    intros (r & Hr & _). vm_compute in Hr. discriminate Hr.
  - apply (findOne_scoped_to_owner "{11111111111141118111111111111101}"
             "11111111-1111-4111-8111-111111111101" Fixtures.alice
             Fixtures.items Fixtures.lists); [reflexivity|].
    split; reflexivity.
Defined.

(** C1 as stated fails for an id that is not a uuid: no record is stored
    under it, yet [findOne] does not answer NotFound.  The query itself
    fails and the driver's error leaves the method.  [removeList] hands
    the id to [ListsService.findOne] as the client sent it. *)
Lemma findOne_malformed_id_is_not_NotFound :
  Fixtures.items !! "42" = None /\
  Fixtures.lists !! "42" = None /\
  ItemsService.findOne "42" Fixtures.alice Fixtures.items
  = inl (QueryFailedError "22P02" "") /\
  ListsService.findOne "42" Fixtures.alice Fixtures.lists
  = inl (QueryFailedError "22P02" "") /\
  ListsResolver.removeList
    (JwtPayload.mk "00000000-0000-4000-8000-0000000000a1" 0 0) "42"
    Fixtures.users Fixtures.listItems Fixtures.lists
  = (Fixtures.lists, inl (QueryFailedError "22P02" "")) /\
  ItemsService.findOne "42" Fixtures.alice Fixtures.items
  <> inl (NotFoundException "Item with id: 42 not found") /\
  ListsService.findOne "42" Fixtures.alice Fixtures.lists
  <> inl (NotFoundException "List with id: 42 not found").
Proof. repeat split; discriminate. Qed.

(** ** List items *)

Lemma pair_taken_spec (db : gmap string ListItem.t) (key l i : string) :
  ListItemsRepository.pair_taken db key l i = true <->
  exists k r, db !! k = Some r /\ k <> key
              /\ ListItem.listId r = l /\ ListItem.itemId r = i.
Proof.
  unfold ListItemsRepository.pair_taken.
  rewrite bool_decide_eq_true, Exists_exists. split.
  - intros ([k r] & Hin & Hk & Hl & Hi). apply elem_of_map_to_list in Hin.
    by exists k, r.
  - intros (k & r & Hr & Hk & Hl & Hi). exists (k, r).
    split; [by apply elem_of_map_to_list|done].
Qed.

Lemma pair_taken_false (db : gmap string ListItem.t) (key l i : string) :
  ListItemsRepository.pair_taken db key l i = false ->
  forall k r, db !! k = Some r -> k <> key ->
              ListItem.listId r = l -> ListItem.itemId r = i -> False.
Proof.
  intros Hf k r Hr Hk Hl Hi.
  assert (ListItemsRepository.pair_taken db key l i = true) as Ht
    by (apply pair_taken_spec; by exists k, r).
  congruence.
Qed.

(** the unique constraint is kept by every insert ... *)
Lemma insert_keeps_unique_pairs (uuid : string) (row saved : ListItem.t)
    (lists : gmap string List_.t) (items : gmap string Item.t)
    (db db' : gmap string ListItem.t) :
  ListItemsRepository.unique_pairs db ->
  ListItemsRepository.insert uuid row lists items db = (db', inr saved) ->
  ListItemsRepository.unique_pairs db'.
Proof.
  unfold ListItemsRepository.insert. intros Huniq.
  destruct (db !! uuid) eqn:Hfresh; [discriminate|]. simpl.
  destruct (ListItemsRepository.pair_taken _ _ _ _) eqn:Htaken; [discriminate|].
  destruct (lists !! _); [|discriminate].
  destruct (items !! _); [|discriminate].
  intros [= <- _] k1 k2 r1 r2.
  rewrite !lookup_insert. repeat case_decide; subst.
  - done.
  - intros [= <-] H2 Hl Hi. exfalso.
    eapply (pair_taken_false _ _ _ _ Htaken k2 r2); eauto.
  - intros H1 [= <-] Hl Hi. exfalso.
    eapply (pair_taken_false _ _ _ _ Htaken k1 r1); eauto.
  - apply Huniq.
Qed.

(** ... and by every UPDATE, whatever it re-points *)
Lemma execute_update_keeps_unique_pairs (id : string)
    (set : ListItem.t -> ListItem.t) (db db' : gmap string ListItem.t) (u : unit) :
  ListItemsRepository.unique_pairs db ->
  ListItemsRepository.execute_update id set db = (db', inr u) ->
  ListItemsRepository.unique_pairs db'.
Proof.
  unfold ListItemsRepository.execute_update. intros Huniq.
  destruct (db !! id) as [r|] eqn:Hr; [|by intros [= <-]].
  destruct (delete id db !! ListItem.id (set r)) eqn:Hclash; [discriminate|].
  destruct (ListItemsRepository.pair_taken _ _ _ _) eqn:Htaken; [discriminate|].
  assert (Hothers : ListItemsRepository.unique_pairs (delete id db)).
  { intros k1 k2 r1 r2 H1 H2. apply lookup_delete_Some in H1 as [_ H1].
    apply lookup_delete_Some in H2 as [_ H2]. by apply Huniq. }
  intros [= <-] k1 k2 r1 r2.
  rewrite !lookup_insert. repeat case_decide; subst.
  - done.
  - intros [= <-] H2 Hl Hi. exfalso.
    eapply (pair_taken_false _ _ _ _ Htaken k2 r2); eauto.
  - intros H1 [= <-] Hl Hi. exfalso.
    eapply (pair_taken_false _ _ _ _ Htaken k1 r1); eauto.
  - apply Hothers.
Qed.

Lemma listItem_findOne_eq (id : string) (db : gmap string ListItem.t) :
  ListItemService.findOne id db = inr (db !! id).
Proof.
  unfold ListItemService.findOne, Repository.findOneBy. simpl.
  by destruct (db !! id).
Qed.

(** C3 (as the code behaves).  For an id under which no list item is
    stored, [findOne] does not throw: it resolves to [null]; and so does
    [update], which leaves the table as it was. *)
Theorem listItem_missing_id_resolves_null (id : string)
    (input : UpdateListItemInput.t) (db : gmap string ListItem.t) :
  db !! id = None ->
  ListItemService.findOne id db = inr None /\
  ListItemService.update id input db = (db, inr None).
Proof.
  intros Hmissing. split.
  - by rewrite listItem_findOne_eq, Hmissing.
  - unfold ListItemService.update, ListItemsRepository.execute_update.
    rewrite Hmissing. by rewrite listItem_findOne_eq, Hmissing.
Qed.

Lemma listItem_missing_id_resolves_null_witness :
  (∅ : gmap string ListItem.t) !! "9f0c9f0c-9f0c-49f0-89f0-9f0c9f0c9f0c" = None /\
  ListItemService.findOne "9f0c9f0c-9f0c-49f0-89f0-9f0c9f0c9f0c" ∅ = inr None /\
  ListItemService.update "9f0c9f0c-9f0c-49f0-89f0-9f0c9f0c9f0c"
    (UpdateListItemInput.mk "9f0c9f0c-9f0c-49f0-89f0-9f0c9f0c9f0c" (Some 3%Z)
       None None None) ∅
  = (∅, inr None).
Proof.
  split; [reflexivity|].
  apply (listItem_missing_id_resolves_null "9f0c9f0c-9f0c-49f0-89f0-9f0c9f0c9f0c").
  reflexivity.
Defined.

(** C2 (as the code behaves).  Once a list item for a (list, item) pair
    has been created, creating another one for the same pair is refused
    by the unique constraint and leaves the table unchanged; the method
    rethrows the driver's error as it is.  That error is no
    [HttpException], whereas [UsersService.handleDBErrors] turns the very
    same error into a [BadRequestException] naming the offending key. *)
Theorem listItem_duplicate_pair_rethrown_raw (uuid1 uuid2 : string)
    (first second : CreateListItemInput.t)
    (lists : gmap string List_.t) (items : gmap string Item.t)
    (db db1 : gmap string ListItem.t) (created : option ListItem.t) :
  ListItemService.create uuid1 first lists items db = (db1, inr created) ->
  CreateListItemInput.listId second = CreateListItemInput.listId first ->
  CreateListItemInput.itemId second = CreateListItemInput.itemId first ->
  db1 !! uuid2 = None ->
  let error :=
    ListItemsRepository.pair_violation (CreateListItemInput.listId first)
                                       (CreateListItemInput.itemId first) in
  ListItemService.create uuid2 second lists items db1 = (db1, inl error) /\
  isHttpException error = false /\
  exists detail,
    @UsersService.handleDBErrors (option ListItem.t) error
      = inl (BadRequestException detail).
Proof.
  intros Hfirst Hl Hi Hfresh error.
  assert (Hrow : exists r, db1 !! uuid1 = Some r
             /\ ListItem.listId r = CreateListItemInput.listId first
             /\ ListItem.itemId r = CreateListItemInput.itemId first).
  { revert Hfirst. unfold ListItemService.create, ListItemsRepository.insert.
    destruct (db !! uuid1); [discriminate|]. simpl.
    destruct (ListItemsRepository.pair_taken _ _ _ _); [discriminate|].
    destruct (lists !! _); [|discriminate].
    destruct (items !! _); [|discriminate].
    intros [= <- _]. eexists. rewrite lookup_insert_eq. done. }
  destruct Hrow as (r & Hr & Hrl & Hri).
  assert (uuid1 <> uuid2) as Hne by congruence.
  split; [|split; [reflexivity|eexists; reflexivity]].
  unfold ListItemService.create, ListItemsRepository.insert.
  rewrite Hfresh. simpl. rewrite Hl, Hi.
  assert (ListItemsRepository.pair_taken db1 uuid2
            (CreateListItemInput.listId first)
            (CreateListItemInput.itemId first) = true) as ->; [|done].
  apply pair_taken_spec. by exists uuid1, r.
Qed.

Lemma listItem_duplicate_pair_rethrown_raw_witness :
  let db1 := (ListItemService.create "33333333-3333-4333-8333-333333333301"
                Fixtures.groceries Fixtures.lists Fixtures.items ∅).1 in
  ListItemService.create "33333333-3333-4333-8333-333333333302"
    Fixtures.groceries Fixtures.lists Fixtures.items db1
    = (db1, inl (ListItemsRepository.pair_violation
                   "22222222-2222-4222-8222-222222222201"
                   "11111111-1111-4111-8111-111111111101")) /\
  isHttpException (ListItemsRepository.pair_violation
                     "22222222-2222-4222-8222-222222222201"
                     "11111111-1111-4111-8111-111111111101") = false.
Proof.
  intros db1.
  destruct (listItem_duplicate_pair_rethrown_raw
              "33333333-3333-4333-8333-333333333301"
              "33333333-3333-4333-8333-333333333302"
              Fixtures.groceries Fixtures.groceries Fixtures.lists
              Fixtures.items ∅ db1
              (Some (ListItem.mk "33333333-3333-4333-8333-333333333301" 2 false
                       "22222222-2222-4222-8222-222222222201"
                       "11111111-1111-4111-8111-111111111101")))
    as (Hcreate & Hraw & _).
  - vm_compute. reflexivity.
  - reflexivity.
  - reflexivity.
  - vm_compute. reflexivity.
  - split; [exact Hcreate|exact Hraw].
Defined.

(** ** Users and authentication *)

Example handleDBErrors_duplicate_email :
  @UsersService.handleDBErrors User.t
     (Sql.unique_violation "email" "alice@example.com")
  = inl (BadRequestException " (email)=(alice@example.com) already exists.").
Proof. reflexivity. Qed.

Example signup_duplicate_email_is_bad_request :
  @AuthService.signup ["user"] true Fixtures.bcrypt Fixtures.jwt
      "00000000-0000-4000-8000-0000000000c3"
     (SignUpInput.mk "alice@example.com" "Alice II" "s3cret") Fixtures.users
  = (Fixtures.users,
     inl (BadRequestException " (email)=(alice@example.com) already exists.")).
Proof. vm_compute. reflexivity. Qed.

Example update_missing_user_is_internal_error :
  UsersService.update "00000000-0000-4000-8000-0000000000ff"
    (UpdateUserInput.mk "00000000-0000-4000-8000-0000000000ff" None None None None None)
    Fixtures.bob Fixtures.users
  = (Fixtures.users,
     inl (InternalServerErrorException "Please check server logs")).
Proof. vm_compute. reflexivity. Qed.

Lemma persisted_fields (old : option User.t) (u : User.t) :
  User.id (UsersRepository.persisted old u) = User.id u /\
  User.isActive (UsersRepository.persisted old u) = User.isActive u /\
  User.lastUpdatedBy (UsersRepository.persisted old u) = User.lastUpdatedBy u.
Proof.
  unfold UsersRepository.persisted.
  destruct (User.password u), old; done.
Qed.

Lemma save_ok (u v : User.t) (db db' : gmap string User.t) :
  UsersRepository.save u db = (db', inr v) ->
  v = u /\ db' = <[User.id u := UsersRepository.persisted (db !! User.id u) u]> db.
Proof.
  unfold UsersRepository.save.
  destruct (UsersRepository.email_taken _ _ _); [discriminate|].
  by intros [= <- <-].
Qed.

Lemma findOneById_ok (id : string) (db : gmap string User.t) (u : User.t) :
  UsersService.findOneById id db = inr u <-> db !! id = Some u.
Proof.
  unfold UsersService.findOneById, UsersRepository.findOneByOrFail_id.
  destruct (db !! id); split; try discriminate; by intros [= <-].
Qed.

Lemma validateUser_inactive (id : string) (db : gmap string User.t) (row : User.t) :
  db !! id = Some row -> User.isActive row = false ->
  AuthService.validateUser id db
    = inl (UnauthorizedException "User is inactive, talk with an admin").
Proof.
  intros Hrow Hinactive. unfold AuthService.validateUser.
  apply findOneById_ok in Hrow. rewrite Hrow. simpl. by rewrite Hinactive.
Qed.

Lemma block_ok (id : string) (admin blocked : User.t)
    (db db' : gmap string User.t) :
  Repository.keyed User.id db ->
  UsersService.block id admin db = (db', inr blocked) ->
  User.id blocked = id /\
  User.isActive blocked = false /\
  User.lastUpdatedBy blocked = Some (User.id admin) /\
  db' = <[id := UsersRepository.persisted (db !! id) blocked]> db.
Proof.
  intros Hkeyed. unfold UsersService.block.
  destruct (UsersService.findOneById id db) as [e|row] eqn:Hfind; [discriminate|].
  apply findOneById_ok in Hfind. pose proof (Hkeyed _ _ Hfind) as Hid.
  simpl in Hid. intros [-> ->]%save_ok. simpl. rewrite Hid. done.
Qed.

(** C7. Once [block] has completed for a user, the returned and the
    stored record are inactive, and validating a token that resolves to
    that user throws Unauthorized, whatever the token's issue and expiry
    times; the same holds in any later state of the table in which the
    user's record is still inactive. *)
Theorem blocked_user_fails_validation (X admin blocked : User.t)
    (db db' : gmap string User.t) (payload : JwtPayload.t) :
  Repository.keyed User.id db ->
  UsersService.block (User.id X) admin db = (db', inr blocked) ->
  JwtPayload.id payload = User.id X ->
  User.isActive blocked = false /\
  (exists row, db' !! User.id X = Some row /\ User.isActive row = false) /\
  AuthService.validateUser (User.id X) db'
    = inl (UnauthorizedException "User is inactive, talk with an admin") /\
  JwtStrategy.validate payload db'
    = inl (UnauthorizedException "User is inactive, talk with an admin") /\
  (forall later row, later !! User.id X = Some row -> User.isActive row = false ->
     JwtStrategy.validate payload later
       = inl (UnauthorizedException "User is inactive, talk with an admin")).
Proof.
  intros Hkeyed Hblock Hpayload.
  destruct (block_ok _ _ _ _ _ Hkeyed Hblock) as (Hid & Hinactive & _ & ->).
  set (row := UsersRepository.persisted (db !! User.id X) blocked).
  assert (Hrow : User.isActive row = false).
  { subst row. by rewrite (proj1 (proj2 (persisted_fields _ _))). }
  assert (Hstored : <[User.id X := row]> db !! User.id X = Some row)
    by apply lookup_insert_eq.
  split; [done|]. split; [by exists row|].
  split; [by eapply validateUser_inactive|].
  unfold JwtStrategy.validate. rewrite Hpayload.
  split; [by eapply validateUser_inactive|].
  intros later row'. apply validateUser_inactive.
Qed.

Lemma users_keyed : Repository.keyed User.id Fixtures.users.
Proof.
  apply map_Forall_insert_2; [done|].
  apply map_Forall_insert_2; [done|]. apply map_Forall_empty.
Qed.

Lemma blocked_user_fails_validation_witness :
  let db' := (UsersService.block "00000000-0000-4000-8000-0000000000a1" Fixtures.bob
      Fixtures.users).1 in
  AuthService.validateUser "00000000-0000-4000-8000-0000000000a1" db'
    = inl (UnauthorizedException "User is inactive, talk with an admin") /\
  JwtStrategy.validate (JwtPayload.mk "00000000-0000-4000-8000-0000000000a1" 1700000000
      4102444800) db'
    = inl (UnauthorizedException "User is inactive, talk with an admin").
Proof.
  intros db'.
  destruct (blocked_user_fails_validation Fixtures.alice Fixtures.bob
              (User.mk "00000000-0000-4000-8000-0000000000a1" "Alice"
                  "alice@example.com" (Some "hash(wonderland)")
                       ["user"] false (Some "00000000-0000-4000-8000-0000000000b2"))
              Fixtures.users db' (JwtPayload.mk "00000000-0000-4000-8000-0000000000a1"
                  1700000000 4102444800))
    as (_ & _ & Hvalidate & Hjwt & _).
  - exact users_keyed.
  - vm_compute. reflexivity.
  - reflexivity.
  - split; [exact Hvalidate|exact Hjwt].
Defined.

Lemma update_ok (id : string) (input : UpdateUserInput.t) (actor saved : User.t)
    (db db' : gmap string User.t) :
  UsersService.update id input actor db = (db', inr saved) ->
  User.id saved = id /\
  User.lastUpdatedBy saved = Some (User.id actor) /\
  db' = <[id := UsersRepository.persisted (db !! id) saved]> db.
Proof.
  unfold UsersService.update, UsersService.preload.
  destruct (db !! id) as [row|] eqn:Hrow; [|discriminate].
  match goal with
  | |- context [UsersRepository.save ?u db] =>
      destruct (UsersRepository.save u db) as [db1 [e|v]] eqn:Hsave
  end.
  - destruct e; simpl; try discriminate.
    by destruct (String.eqb code "23505").
  - apply save_ok in Hsave as [-> ->]. simpl. rewrite Hrow.
    by intros [= <- <-].
Qed.

(** C10. Every successful [update] and every successful [block] leaves
    the acting user as [lastUpdatedBy], both on the record it returns and
    on the record stored under the id. *)
Theorem lastUpdatedBy_names_the_actor (id : string) (input : UpdateUserInput.t)
    (actor saved : User.t) (db db' : gmap string User.t) :
  Repository.keyed User.id db ->
  UsersService.update id input actor db = (db', inr saved)
  \/ UsersService.block id actor db = (db', inr saved) ->
  User.lastUpdatedBy saved = Some (User.id actor) /\
  exists row, db' !! id = Some row
              /\ User.lastUpdatedBy row = Some (User.id actor).
Proof.
  intros Hkeyed [Hupdate|Hblock].
  - destruct (update_ok _ _ _ _ _ _ Hupdate) as (_ & Hby & ->).
    split; [done|]. eexists. rewrite lookup_insert_eq. split; [done|].
    by rewrite (proj2 (proj2 (persisted_fields _ _))).
  - destruct (block_ok _ _ _ _ _ Hkeyed Hblock) as (_ & _ & Hby & ->).
    split; [done|]. eexists. rewrite lookup_insert_eq. split; [done|].
    by rewrite (proj2 (proj2 (persisted_fields _ _))).
Qed.

Lemma lastUpdatedBy_names_the_actor_witness :
  let rename := UpdateUserInput.mk "00000000-0000-4000-8000-0000000000a1" None (Some
      "Alice L.") None None None in
  (exists row,
     (UsersService.update "00000000-0000-4000-8000-0000000000a1" rename Fixtures.bob
         Fixtures.users).1 !! "00000000-0000-4000-8000-0000000000a1"
       = Some row /\ User.lastUpdatedBy row = Some "00000000-0000-4000-8000-0000000000b2") /\
  (exists row,
     (UsersService.block "00000000-0000-4000-8000-0000000000a1" Fixtures.bob
         Fixtures.users).1 !! "00000000-0000-4000-8000-0000000000a1"
       = Some row /\ User.lastUpdatedBy row = Some "00000000-0000-4000-8000-0000000000b2").
Proof.
  intros rename. split.
  - apply (lastUpdatedBy_names_the_actor "00000000-0000-4000-8000-0000000000a1" rename Fixtures.bob
             (User.mk "00000000-0000-4000-8000-0000000000a1" "Alice L." "alice@example.com"
                      (Some "hash(wonderland)") ["user"] true (Some
                          "00000000-0000-4000-8000-0000000000b2"))
             Fixtures.users).
    + exact users_keyed.
    + left. vm_compute. reflexivity.
  - apply (lastUpdatedBy_names_the_actor "00000000-0000-4000-8000-0000000000a1" rename Fixtures.bob
             (User.mk "00000000-0000-4000-8000-0000000000a1" "Alice" "alice@example.com"
                      (Some "hash(wonderland)") ["user"] false (Some
                          "00000000-0000-4000-8000-0000000000b2"))
             Fixtures.users).
    + exact users_keyed.
    + right. vm_compute. reflexivity.
Defined.

Lemma elem_of_rows {R : Type} (db : gmap string R) (r : R) :
  r ∈ Repository.rows db <-> exists k, db !! k = Some r.
Proof.
  unfold Repository.rows. rewrite list_elem_of_fmap. split.
  - intros ([k r'] & -> & Hin). exists k. by apply elem_of_map_to_list.
  - intros [k Hk]. exists (k, r). split; [done|]. by apply elem_of_map_to_list.
Qed.

Lemma findOneByEmail_unknown (email : string) (db : gmap string User.t) :
  (forall k u, db !! k = Some u -> User.email u <> email) ->
  UsersService.findOneByEmail email db
    = inl (NotFoundException (email +:+ " not found")).
Proof.
  intros Hnone.
  unfold UsersService.findOneByEmail, UsersRepository.findOneByOrFail_email.
  destruct (head _) as [u|] eqn:Hhead; [|done]. exfalso.
  apply head_Some_elem_of, list_elem_of_filter in Hhead as [Hemail Hin].
  apply (elem_of_rows (R := User.t)) in Hin as [k Hk]. by eapply Hnone.
Qed.

Lemma findOneByEmail_known (email : string) (db : gmap string User.t) :
  (exists k u, db !! k = Some u /\ User.email u = email) ->
  exists u, UsersService.findOneByEmail email db = inr u
            /\ User.email u = email /\ exists k, db !! k = Some u.
Proof.
  intros (k & u & Hk & Hemail).
  unfold UsersService.findOneByEmail, UsersRepository.findOneByOrFail_email.
  destruct (head _) as [v|] eqn:Hhead.
  - exists v. split; [done|].
    apply head_Some_elem_of, list_elem_of_filter in Hhead as [Hv Hin].
    split; [done|]. by apply (elem_of_rows (R := User.t)).
  - exfalso. apply head_None in Hhead.
    assert (u ∈ filter (fun u => User.email u = email) (Repository.rows db))
      as Hin.
    { apply list_elem_of_filter. split; [done|].
      apply (elem_of_rows (R := User.t)). by exists k. }
    rewrite Hhead in Hin. by apply elem_of_nil in Hin.
Qed.

(** C4 (amended).  A login whose email belongs to no user throws
    NotFound with the message "<email> not found".  A login whose email
    belongs to a user but whose password does not match the stored hash
    throws BadRequest with the fixed message "Email / Password do not
    match", which depends neither on the email nor on the password.  The
    two errors differ in kind. *)
Theorem login_failure_kinds `{Bcrypt} `{JwtService} (input : LoginInput.t)
    (db : gmap string User.t) :
  let email := LoginInput.email input in
  ((forall k u, db !! k = Some u -> User.email u <> email) ->
   AuthService.login input db = inl (NotFoundException (email +:+ " not found")))
  /\
  ((exists k u, db !! k = Some u /\ User.email u = email) ->
   exists u, UsersService.findOneByEmail email db = inr u /\
     forall h, User.password u = Some h ->
               compareSync (LoginInput.password input) h = false ->
               AuthService.login input db
                 = inl (BadRequestException "Email / Password do not match"))
  /\
  (inl (NotFoundException (email +:+ " not found")) : Result AuthResponse.t)
    <> inl (BadRequestException "Email / Password do not match").
Proof.
  intros email. split; [|split; [|discriminate]].
  - intros Hnone. unfold AuthService.login. fold email.
    by rewrite (findOneByEmail_unknown _ _ Hnone).
  - intros Hknown. destruct (findOneByEmail_known _ _ Hknown) as (u & Hu & _).
    exists u. split; [done|]. intros h Hh Hcmp.
    unfold AuthService.login. fold email. rewrite Hu. simpl.
    rewrite Hh. simpl. by rewrite Hcmp.
Qed.

Lemma login_failure_kinds_witness :
  @AuthService.login Fixtures.bcrypt Fixtures.jwt
     (LoginInput.mk "ghost@example.com" "wonderland") Fixtures.users
    = inl (NotFoundException "ghost@example.com not found") /\
  @AuthService.login Fixtures.bcrypt Fixtures.jwt
     (LoginInput.mk "alice@example.com" "guess") Fixtures.users
    = inl (BadRequestException "Email / Password do not match").
Proof.
  split.
  - apply (@login_failure_kinds Fixtures.bcrypt Fixtures.jwt
             (LoginInput.mk "ghost@example.com" "wonderland") Fixtures.users).
    intros k u Hk.
    assert (Hin : (k, u) ∈ map_to_list Fixtures.users)
      by by apply elem_of_map_to_list.
    vm_compute in Hin.
    apply elem_of_cons in Hin as [[= _ ->]|Hin]; [discriminate|].
    apply elem_of_cons in Hin as [[= _ ->]|Hin]; [discriminate|].
    by apply elem_of_nil in Hin.
  - destruct (@login_failure_kinds Fixtures.bcrypt Fixtures.jwt
                (LoginInput.mk "alice@example.com" "guess") Fixtures.users)
      as (_ & Hwrong & _).
    destruct Hwrong as (u & Hu & Hfail).
    + exists "00000000-0000-4000-8000-0000000000a1", Fixtures.alice. split; reflexivity.
    + vm_compute in Hu. injection Hu as <-.
      apply (Hfail "hash(wonderland)"); reflexivity.
Defined.

(** C4 as stated fails: with the same table, an unknown email is
    answered with NotFound naming the email, a wrong password for a known
    email with BadRequest; the two answers differ, and the second is not
    an Unauthorized error. *)
Lemma login_reveals_unknown_email :
  let ghost := @AuthService.login Fixtures.bcrypt Fixtures.jwt
                 (LoginInput.mk "ghost@example.com" "guess") Fixtures.users in
  let wrong := @AuthService.login Fixtures.bcrypt Fixtures.jwt
                 (LoginInput.mk "alice@example.com" "guess") Fixtures.users in
  ghost = inl (NotFoundException "ghost@example.com not found") /\
  wrong = inl (BadRequestException "Email / Password do not match") /\
  ghost <> wrong /\
  (forall message, wrong <> inl (UnauthorizedException message)).
Proof.
  intros ghost wrong.
  assert (Hghost : ghost = inl (NotFoundException "ghost@example.com not found"))
    by (vm_compute; reflexivity).
  assert (Hwrong : wrong = inl (BadRequestException "Email / Password do not match"))
    by (vm_compute; reflexivity).
  rewrite Hghost, Hwrong. repeat split; try discriminate.
Qed.

Lemma validateUser_ok (id : string) (db : gmap string User.t) (u : User.t) :
  AuthService.validateUser id db = inr u ->
  exists row, db !! id = Some row /\ User.isActive row = true
              /\ u = AuthService.delete_password row.
Proof.
  unfold AuthService.validateUser.
  destruct (UsersService.findOneById id db) as [e|row] eqn:Hfind; [discriminate|].
  apply findOneById_ok in Hfind. simpl.
  destruct (User.isActive row) eqn:Hactive; [|discriminate].
  intros [= <-]. by exists row.
Qed.

Lemma CurrentUser_returns_request_user (data : option (list ValidRoles.t))
    (reqUser u : User.t) :
  CurrentUser data (Some reqUser) = inr u -> u = reqUser.
Proof.
  unfold CurrentUser. destruct (length (default [] data) =? 0)%nat.
  - by intros [= <-].
  - destruct (for_roles _ _ _) as [v|] eqn:Hfor; [|discriminate].
    intros [= <-]. by apply for_roles_inv in Hfor as [-> _].
Qed.

(** C9 (amended).  Token validation returns the user with the password
    property deleted, and so does the [revalidate] query, whose user is
    the one validation attached to the request.  [login] and [signup]
    return the record as stored or as just saved: on success the user
    they return carries the password hash. *)
Theorem password_deleted_only_by_validation `{Bcrypt} `{JwtService}
    (defaultRoles : list string) (defaultIsActive : bool)
    (db : gmap string User.t) :
  (forall id u, AuthService.validateUser id db = inr u ->
                User.password u = None) /\
  (forall payload u, JwtStrategy.validate payload db = inr u ->
                     User.password u = None) /\
  (forall payload response,
     AuthResolver.revalidateToken payload db = inr response ->
     User.password (AuthResponse.user response) = None) /\
  (forall input response,
     AuthService.login input db = inr response ->
     UsersService.findOneByEmail (LoginInput.email input) db
       = inr (AuthResponse.user response) /\
     exists h, User.password (AuthResponse.user response) = Some h
               /\ compareSync (LoginInput.password input) h = true) /\
  (forall uuid input db' response,
     AuthService.signup defaultRoles defaultIsActive uuid input db
       = (db', inr response) ->
     User.password (AuthResponse.user response)
       = Some (hashSync (SignUpInput.password input) 10)).
Proof.
  assert (Hvalidate : forall id u, AuthService.validateUser id db = inr u ->
                                   User.password u = None).
  { intros id u (row & _ & _ & ->)%validateUser_ok. reflexivity. }
  split; [exact Hvalidate|].
  split; [intros payload u; apply Hvalidate|].
  split; [|split].
  - intros payload response. unfold AuthResolver.revalidateToken.
    destruct (JwtStrategy.validate payload db) as [e|reqUser] eqn:Hreq;
      [discriminate|].
    unfold mbind, result_bind.
    destruct (CurrentUser (Some [ValidRoles.admin]) (Some reqUser))
      as [e|u] eqn:Hgate; [discriminate|].
    apply CurrentUser_returns_request_user in Hgate as ->.
    intros [= <-]. simpl. by eapply Hvalidate.
  - intros input response. unfold AuthService.login.
    destruct (UsersService.findOneByEmail _ db) as [e|u]; [discriminate|].
    simpl. destruct (User.password u) as [h|] eqn:Hpw; [|discriminate].
    simpl. destruct (compareSync _ h) eqn:Hcmp; [|discriminate].
    simpl. intros [= <-]. simpl. split; [done|]. by exists h.
  - intros uuid input db' response.
    unfold AuthService.signup, UsersService.create, UsersRepository.insert.
    destruct (db !! uuid).
    + discriminate.
    + match goal with
      | |- context [UsersRepository.save ?u db] =>
          destruct (UsersRepository.save u db) as [db1 [e|v]] eqn:Hsave
      end.
      * destruct e; simpl; try discriminate.
        by destruct (String.eqb code "23505").
      * apply save_ok in Hsave as [-> _]. by intros [= _ <-].
Qed.

Lemma password_deleted_only_by_validation_witness :
  (exists u, AuthService.validateUser "00000000-0000-4000-8000-0000000000a1" Fixtures.users = inr u
             /\ User.password u = None) /\
  (exists response,
     @AuthResolver.revalidateToken Fixtures.jwt
        (JwtPayload.mk "00000000-0000-4000-8000-0000000000b2" 1700000000 4102444800)
            Fixtures.users = inr response
     /\ User.password (AuthResponse.user response) = None).
Proof.
  destruct (@password_deleted_only_by_validation Fixtures.bcrypt Fixtures.jwt
              ["user"] true Fixtures.users) as (Hvalidate & _ & Hrevalidate & _).
  split.
  - eexists. split; [vm_compute; reflexivity|].
    eapply (Hvalidate "00000000-0000-4000-8000-0000000000a1"). vm_compute. reflexivity.
  - eexists. split; [vm_compute; reflexivity|].
    eapply (Hrevalidate (JwtPayload.mk "00000000-0000-4000-8000-0000000000b2" 1700000000
        4102444800)).
    vm_compute. reflexivity.
Defined.

(** C9 as stated fails for [login] and [signup]: the user they return
    still carries the stored password hash. *)
Lemma login_and_signup_return_password_hash :
  (exists response,
     @AuthService.login Fixtures.bcrypt Fixtures.jwt
        (LoginInput.mk "alice@example.com" "wonderland") Fixtures.users
       = inr response
     /\ User.password (AuthResponse.user response) = Some "hash(wonderland)") /\
  (exists response,
     (@AuthService.signup ["user"] true Fixtures.bcrypt Fixtures.jwt
         "00000000-0000-4000-8000-0000000000c3"
        (SignUpInput.mk "carol@example.com" "Carol" "s3cret") Fixtures.users).2
       = inr response
     /\ User.password (AuthResponse.user response) = Some "hash(s3cret)").
Proof.
  split; eexists; (split; [vm_compute; reflexivity|reflexivity]).
Qed.

(** ** LIKE patterns and substring search *)

Lemma like_percent (q s : string) :
  Sql.like (String "%" q) s
  = Sql.like q s
    || match s with
       | EmptyString => false
       | String _ s' => Sql.like (String "%" q) s'
       end.
Proof. by destruct s. Qed.

Lemma like_literal (c : ascii) (q s : string) :
  Sql.is_wildcard c = false ->
  Sql.like (String c q) s
  = match s with
    | EmptyString => false
    | String x s' => Ascii.eqb x c && Sql.like q s'
    end.
Proof.
  unfold Sql.is_wildcard. intros Hc.
  apply orb_false_elim in Hc as [Hc Hbackslash].
  apply orb_false_elim in Hc as [Hpercent Hunderscore].
  simpl. rewrite Hpercent, Hunderscore, Hbackslash. by destruct s.
Qed.

Lemma like_any (s : string) : Sql.like "%" s = true.
Proof.
  induction s as [|x s IH]; [done|].
  rewrite like_percent. rewrite IH. apply orb_true_r.
Qed.

Lemma like_percent_spec (q s : string) :
  Sql.like (String "%" q) s = true <->
  exists pre post, s = pre +:+ post /\ Sql.like q post = true.
Proof.
  induction s as [|x s IH]; rewrite like_percent.
  - rewrite orb_false_r. split.
    + intros Hq. by exists "", "".
    + intros (pre & post & Hs & Hq). destruct pre; norm_append; [|discriminate].
      by subst post.
  - rewrite orb_true_iff, IH. split.
    + intros [Hq|(pre & post & -> & Hq)].
      * by exists "", (String x s).
      * by exists (String x pre), post.
    + intros (pre & post & Hs & Hq). destruct pre as [|y pre]; norm_append.
      * subst post. by left.
      * injection Hs as -> ->. right. by exists pre, post.
Qed.

Lemma like_literal_prefix (p q s : string) :
  Sql.wildcard_free p = true ->
  Sql.like (p +:+ q) s = true <->
  exists post, s = p +:+ post /\ Sql.like q post = true.
Proof.
  revert s. induction p as [|c p IH]; intros s Hfree.
  - norm_append. split; [intros Hq; by exists s|].
    intros (post & Hs & Hq). norm_append. by subst s.
  - simpl in Hfree. apply andb_true_iff in Hfree as [Hc Hfree].
    apply negb_true_iff in Hc. norm_append.
    rewrite (like_literal _ _ _ Hc). destruct s as [|x s].
    + split; [discriminate|]. intros (post & Hs & _). norm_append. discriminate.
    + rewrite andb_true_iff, (IH s Hfree), Ascii.eqb_eq. split.
      * intros (-> & post & -> & Hq). by exists post.
      * intros (post & Hs & Hq). norm_append. injection Hs as -> ->.
        split; [done|by exists post].
Qed.

Lemma is_prefix_spec (p s : string) :
  Js.is_prefix p s = true <-> exists post, s = p +:+ post.
Proof.
  unfold Js.is_prefix. revert s. induction p as [|c p IH]; intros s.
  - simpl. split; [by exists s|by destruct s].
  - destruct s as [|x s]; simpl.
    + split; [discriminate|]. intros (post & Hs). norm_append. discriminate.
    + destruct (Ascii.ascii_dec c x) as [->|Hne].
      * rewrite IH. split; intros (post & Hs); exists post; norm_append; congruence.
      * split; [discriminate|]. intros (post & Hs). norm_append. congruence.
Qed.

Lemma includes_unfold (needle s : string) :
  Spec.includes needle s
  = Js.is_prefix needle s
    || match s with
       | EmptyString => false
       | String _ s' => Spec.includes needle s'
       end.
Proof. by destruct s. Qed.

Lemma includes_spec_substring (needle s : string) :
  Spec.includes needle s = true <->
  exists pre post, s = pre +:+ needle +:+ post.
Proof.
  induction s as [|x s IH];
    rewrite includes_unfold, orb_true_iff, is_prefix_spec.
  - split.
    + intros [(post & Hs)|?]; [|done]. by exists "", post.
    + intros (pre & post & Hs). left.
      destruct pre; norm_append; [|discriminate]. by exists post.
  - rewrite IH. split.
    + intros [(post & Hs)|(pre & post & ->)].
      * by exists "", post.
      * by exists (String x pre), post.
    + intros (pre & post & Hs). destruct pre as [|y pre]; norm_append.
      * left. by exists post.
      * injection Hs as -> ->. right. by exists pre, post.
Qed.

(** for a term without wildcards, the LIKE test the services build is
    the substring test *)
Lemma like_is_includes (term s : string) :
  Sql.wildcard_free term = true ->
  Sql.like ("%" +:+ term +:+ "%") s = Spec.includes term s.
Proof.
  intros Hfree. apply eq_true_iff_eq.
  change ("%" +:+ term +:+ "%") with (String "%" (term +:+ "%")).
  rewrite like_percent_spec, includes_spec_substring.
  split.
  - intros (pre & post & Hs & Hrest).
    apply (like_literal_prefix _ _ _ Hfree) in Hrest as (post' & -> & _).
    by exists pre, post'.
  - intros (pre & post & Hs).
    exists pre, (term +:+ post). split; [done|].
    apply (like_literal_prefix _ _ _ Hfree). exists post.
    split; [done|apply like_any].
Qed.

Example search_ab_matches_ABC_and_xaby :
  Sql.like ("%" +:+ Js.toLowerCase "ab" +:+ "%") (Sql.lower "ABC") = true /\
  Sql.like ("%" +:+ Js.toLowerCase "ab" +:+ "%") (Sql.lower "xaby") = true /\
  Sql.like ("%" +:+ Js.toLowerCase "ab" +:+ "%") (Sql.lower "a-b") = false.
Proof. repeat split; reflexivity. Qed.

(** on the bytes of ASCII text the two case foldings are one function *)
Lemma lower_toLowerCase (s : string) : Sql.lower s = Js.toLowerCase s.
Proof. induction s as [|c s IH]; [done|]. simpl. by rewrite IH. Qed.

Lemma lower_char_wildcard (c : ascii) :
  Sql.is_wildcard (Js.lower_char c) = Sql.is_wildcard c.
Proof. destruct c as [[] [] [] [] [] [] [] []]; reflexivity. Qed.

Lemma toLowerCase_wildcard_free (s : string) :
  Sql.wildcard_free (Js.toLowerCase s) = Sql.wildcard_free s.
Proof.
  induction s as [|c s IH]; [done|]. simpl.
  by rewrite lower_char_wildcard, IH.
Qed.

Lemma includes_empty (s : string) : Spec.includes "" s = true.
Proof. rewrite includes_unfold. by destruct s. Qed.

(** ** Listing with pagination and search *)

Section Paging.

Context {R : Type}.

Lemma length_page (L O : nat) (all : list R) :
  Z.of_nat (length (take L (drop O all)))
  = Z.max 0 (Z.min (Z.of_nat L) (Z.of_nat (length all) - Z.of_nat O)).
Proof. rewrite length_take, length_drop. lia. Qed.

Lemma concat_pages_take (L n : nat) (all : list R) :
  concat ((fun k => take L (drop (k * L) all)) <$> seq 0 n) = take (n * L) all.
Proof.
  induction n as [|n IH]; [done|].
  rewrite seq_S, fmap_app, concat_app, IH. simpl.
  rewrite app_nil_r, take_take_drop. f_equal. lia.
Qed.

Lemma concat_pages_all (L n : nat) (all : list R) :
  length all <= n * L ->
  concat ((fun k => take L (drop (k * L) all)) <$> seq 0 n) = all.
Proof. intros Hn. rewrite concat_pages_take. by apply take_ge. Qed.

End Paging.

(** the patterns the services build never end in a dangling escape *)
Lemma built_pattern_well_formed (s : string) :
  Sql.ends_in_escape ("%" +:+ s +:+ "%") = false.
Proof.
  change ("%" +:+ s +:+ "%") with (String "%" (s +:+ "%")).
  change (Sql.ends_in_escape (String "%" (s +:+ "%")))
    with (Sql.ends_in_escape (s +:+ "%")).
  assert (H : Sql.ends_in_escape (s +:+ "%") = false
              /\ forall c, Sql.ends_in_escape (String c (s +:+ "%")) = false);
    [|apply H].
  induction s as [|x s [IH1 IH2]].
  - split; [done|]. intros c. simpl. by destruct (Ascii.eqb c "\").
  - norm_append. split; [apply IH2|].
    intros c. simpl. destruct (Ascii.eqb c "\"); [apply IH1|].
    apply (IH2 x).
Qed.

Lemma matching_elem {R : Type} (owner name : R -> string) (U : User.t)
    (search : option string) (db : gmap string R) (r : R) :
  r ∈ Spec.matching owner name U search db <->
  (exists k, db !! k = Some r) /\ owner r = User.id U /\
  (forall term, search = Some term ->
     exists pre post,
       Js.toLowerCase (name r) = pre +:+ Js.toLowerCase term +:+ post).
Proof.
  unfold Spec.matching. rewrite list_elem_of_filter, elem_of_rows.
  destruct search as [term|]; simpl.
  - rewrite includes_spec_substring. split.
    + intros [[Hown Hsub] Hin]. split; [done|]. split; [done|].
      by intros ? [= <-].
    + intros (Hin & Hown & Hsub). split; [|done]. split; [done|]. by apply Hsub.
  - split.
    + intros [[Hown _] Hin]. by repeat split.
    + intros (Hin & Hown & _). by repeat split.
Qed.

Lemma search_condition_spec (s name : string) :
  Sql.wildcard_free s = true ->
  Sql.like ("%" +:+ Js.toLowerCase s +:+ "%") (Sql.lower name)
  = Spec.search_matches (Some s) name.
Proof.
  intros Hfree. rewrite (lower_toLowerCase name).
  apply like_is_includes. by rewrite toLowerCase_wildcard_free.
Qed.

Lemma items_findAll_spec (U : User.t) (pag : PaginationArgs.t)
    (search : option string) (db : gmap string Item.t) :
  1 <= PaginationArgs.limit pag ->
  (forall term, search = Some term -> Sql.wildcard_free term = true) ->
  ItemsService.findAll U pag (SearchArgs.mk search) db
  = Spec.findAll Item.userId Item.name U pag search db.
Proof.
  destruct pag as [O [|L]]; [simpl; lia|]. intros _ Hfree.
  unfold ItemsService.findAll, Spec.findAll, Spec.matching.
  unfold QueryBuilder.getMany. simpl.
  destruct search as [[|c s]|]; simpl; do 2 f_equal; apply list_filter_iff;
    intros r; unfold QueryBuilder.holds; simpl;
    rewrite ?andb_true_r, ?andb_true_iff, items_owned_by_spec.
  - rewrite includes_empty. tauto.
  - rewrite (search_condition_spec (String c s)) by by apply Hfree. done.
  - tauto.
Qed.

Lemma lists_findAll_spec (U : User.t) (pag : PaginationArgs.t)
    (search : option string) (db : gmap string List_.t) :
  1 <= PaginationArgs.limit pag ->
  (forall term, search = Some term -> Sql.wildcard_free term = true) ->
  ListsService.findAll U pag (SearchArgs.mk search) db
  = Spec.findAll List_.userId List_.name U pag search db.
Proof.
  destruct pag as [O [|L]]; [simpl; lia|]. intros _ Hfree.
  unfold ListsService.findAll, Spec.findAll, Spec.matching.
  unfold QueryBuilder.getMany. simpl.
  destruct search as [[|c s]|]; simpl; do 2 f_equal; apply list_filter_iff;
    intros r; unfold QueryBuilder.holds; simpl;
    rewrite ?andb_true_r, ?andb_true_iff, lists_owned_by_spec.
  - rewrite includes_empty. tauto.
  - rewrite (search_condition_spec (String c s)) by by apply Hfree. done.
  - tauto.
Qed.

Lemma items_ascii : Repository.ascii_column Item.name Fixtures.items.
Proof.
  apply map_Forall_insert_2; [done|].
  apply map_Forall_insert_2; [done|]. apply map_Forall_empty.
Qed.

Lemma lists_ascii : Repository.ascii_column List_.name Fixtures.lists.
Proof.
  apply map_Forall_insert_2; [done|].
  apply map_Forall_insert_2; [done|]. apply map_Forall_empty.
Qed.

(** C6 (amended).  Over names and search terms that are ASCII text: for
    a limit L >= 1, an offset O and a search term that, when given,
    contains none of the LIKE wildcards (percent sign, underscore,
    backslash), [findAll] on items and on lists returns the records
    owned by U whose name contains the term as a case-insensitive
    substring, in table order, sliced by offset and then limit.  With N
    such records it returns max(0, min(L, N - O)) of them, and the pages
    at offsets 0, L, 2L, ... put one after the other are those N
    records, each exactly once. *)
Theorem findAll_pages_of_owned_matches (U : User.t) (L O : nat)
    (search : option string)
    (items : gmap string Item.t) (lists : gmap string List_.t) :
  1 <= L ->
  (forall term, search = Some term ->
     Sql.wildcard_free term = true /\ Js.is_ascii term = true) ->
  Repository.ascii_column Item.name items ->
  Repository.ascii_column List_.name lists ->
  let item_page o :=
    ItemsService.findAll U (PaginationArgs.mk o L) (SearchArgs.mk search) items in
  let list_page o :=
    ListsService.findAll U (PaginationArgs.mk o L) (SearchArgs.mk search) lists in
  let all_items := Spec.matching Item.userId Item.name U search items in
  let all_lists := Spec.matching List_.userId List_.name U search lists in
  (item_page O = take L (drop O all_items) /\
   Z.of_nat (length (item_page O))
   = Z.max 0 (Z.min (Z.of_nat L) (Z.of_nat (length all_items) - Z.of_nat O)) /\
   (forall n, length all_items <= n * L ->
      concat ((fun k => item_page (k * L)) <$> seq 0 n) = all_items) /\
   forall r, r ∈ all_items <->
     (exists k, items !! k = Some r) /\ Item.userId r = User.id U /\
     (forall term, search = Some term ->
        exists pre post,
          Js.toLowerCase (Item.name r) = pre +:+ Js.toLowerCase term +:+ post)) /\
  (list_page O = take L (drop O all_lists) /\
   Z.of_nat (length (list_page O))
   = Z.max 0 (Z.min (Z.of_nat L) (Z.of_nat (length all_lists) - Z.of_nat O)) /\
   (forall n, length all_lists <= n * L ->
      concat ((fun k => list_page (k * L)) <$> seq 0 n) = all_lists) /\
   forall r, r ∈ all_lists <->
     (exists k, lists !! k = Some r) /\ List_.userId r = User.id U /\
     (forall term, search = Some term ->
        exists pre post,
          Js.toLowerCase (List_.name r) = pre +:+ Js.toLowerCase term +:+ post)).
Proof.
  intros HL Hterm _ _ item_page list_page all_items all_lists.
  assert (Hfree : forall term, search = Some term -> Sql.wildcard_free term = true)
    by (intros term Hs; by destruct (Hterm term Hs)).
  assert (Hitems : forall o, item_page o = take L (drop o all_items))
    by (intros o; subst item_page; cbv beta; by rewrite items_findAll_spec).
  assert (Hlists : forall o, list_page o = take L (drop o all_lists))
    by (intros o; subst list_page; cbv beta; by rewrite lists_findAll_spec).
  split.
  - split; [apply Hitems|]. split; [rewrite Hitems; apply length_page|].
    split; [|intros r; apply matching_elem].
    intros n Hn. rewrite <- (concat_pages_all L n all_items Hn).
    f_equal. apply list_fmap_ext. intros _ k _. apply Hitems.
  - split; [apply Hlists|]. split; [rewrite Hlists; apply length_page|].
    split; [|intros r; apply matching_elem].
    intros n Hn. rewrite <- (concat_pages_all L n all_lists Hn).
    f_equal. apply list_fmap_ext. intros _ k _. apply Hlists.
Qed.

Lemma findAll_pages_of_owned_matches_witness :
  ItemsService.findAll Fixtures.alice (PaginationArgs.mk 0 1)
    (SearchArgs.mk (Some "AB")) Fixtures.items
  = [Item.mk "11111111-1111-4111-8111-111111111101" "abc" (Some "kg")
       "00000000-0000-4000-8000-0000000000a1"] /\
  ListsService.findAll Fixtures.bob (PaginationArgs.mk 0 1)
    (SearchArgs.mk (Some "AB")) Fixtures.lists
  = [].
Proof.
  assert (Hterm : forall term, Some "AB" = Some term ->
            Sql.wildcard_free term = true /\ Js.is_ascii term = true)
    by (intros term [= <-]; split; reflexivity).
  split.
  - destruct (findAll_pages_of_owned_matches Fixtures.alice 1 0 (Some "AB")
                Fixtures.items Fixtures.lists (le_n 1) Hterm
                items_ascii lists_ascii)
      as ((Hpage & _) & _).
    rewrite Hpage. vm_compute. reflexivity.
  - destruct (findAll_pages_of_owned_matches Fixtures.bob 1 0 (Some "AB")
                Fixtures.items Fixtures.lists (le_n 1) Hterm
                items_ascii lists_ascii)
      as (_ & (Hpage & _)).
    rewrite Hpage. vm_compute. reflexivity.
Defined.

(** C6 as stated fails for a search term with a LIKE wildcard: the
    underscore of "a_c" matches any character, so the item named "abc"
    is returned although "a_c" is not a substring of its name. *)
Lemma findAll_search_wildcard_is_not_substring :
  ItemsService.findAll Fixtures.alice (PaginationArgs.mk 0 10)
    (SearchArgs.mk (Some "a_c")) Fixtures.items
  = [Item.mk "11111111-1111-4111-8111-111111111101" "abc" (Some "kg")
       "00000000-0000-4000-8000-0000000000a1"] /\
  Spec.findAll Item.userId Item.name Fixtures.alice (PaginationArgs.mk 0 10)
    (Some "a_c") Fixtures.items
  = [] /\
  ListsService.findAll Fixtures.alice (PaginationArgs.mk 0 10)
    (SearchArgs.mk (Some "a_c")) Fixtures.lists
  = [List_.mk "22222222-2222-4222-8222-222222222201" "abc"
       "00000000-0000-4000-8000-0000000000a1"] /\
  Spec.findAll List_.userId List_.name Fixtures.alice (PaginationArgs.mk 0 10)
    (Some "a_c") Fixtures.lists
  = [].
Proof. repeat split; vm_compute; reflexivity. Qed.

(** ** Updating an owned record *)

(** When the input carries the id the method was called with, as the
    resolvers always arrange, and the id is spelled as the database
    prints it, [update] on items fails exactly like [findOne] and
    otherwise merges the input onto the stored record and stores it
    under that id, leaving every other key alone. *)
Lemma items_update_when_ids_agree (id : string) (input : UpdateItemInput.t)
    (U : User.t) (db : gmap string Item.t) :
  Repository.keyed Item.id db ->
  Sql.uuid_in id = Some id ->
  UpdateItemInput.id input = id ->
  match ItemsService.findOne id U db with
  | inl e => ItemsService.update id input U db = (db, inl e)
  | inr stored =>
      let merged :=
        Item.mk id (default (Item.name stored) (UpdateItemInput.name input))
          (match UpdateItemInput.quantityUnits input with
           | Some q => Some q
           | None => Item.quantityUnits stored
           end)
          (Item.userId stored) in
      ItemsService.update id input U db = (<[id := merged]> db, inr merged)
      /\ forall k, k <> id -> (<[id := merged]> db) !! k = db !! k
  end.
Proof.
  intros Hkeyed Hcanon Hid. unfold ItemsService.update.
  destruct (ItemsService.findOne id U db) as [e|stored] eqn:Hfind; [done|].
  pose proof (proj1 (items_findOne_ok id id U db stored Hcanon) Hfind)
    as [Hstored _].
  unfold ItemsService.preload, ItemsService.save.
  rewrite Hid, Hcanon, Hstored.
  rewrite (Hkeyed id stored Hstored), String.eqb_refl. simpl.
  rewrite Hcanon, Hstored, (Hkeyed id stored Hstored), String.eqb_refl.
  split; [done|]. intros k Hk. by rewrite lookup_insert_ne.
Qed.

Lemma lists_update_when_ids_agree (id : string) (input : UpdateListInput.t)
    (U : User.t) (db : gmap string List_.t) :
  Repository.keyed List_.id db ->
  Sql.uuid_in id = Some id ->
  UpdateListInput.id input = id ->
  match ListsService.findOne id U db with
  | inl e => ListsService.update id input U db = (db, inl e)
  | inr stored =>
      let merged :=
        List_.mk id (default (List_.name stored) (UpdateListInput.name input))
          (List_.userId stored) in
      ListsService.update id input U db = (<[id := merged]> db, inr merged)
      /\ forall k, k <> id -> (<[id := merged]> db) !! k = db !! k
  end.
Proof.
  intros Hkeyed Hcanon Hid. unfold ListsService.update.
  destruct (ListsService.findOne id U db) as [e|stored] eqn:Hfind; [done|].
  pose proof (proj1 (lists_findOne_ok id id U db stored Hcanon) Hfind)
    as [Hstored _].
  unfold ListsService.preload, ListsService.save.
  rewrite Hid, Hcanon, Hstored.
  rewrite (Hkeyed id stored Hstored), String.eqb_refl. simpl.
  rewrite Hcanon, Hstored, (Hkeyed id stored Hstored), String.eqb_refl.
  split; [done|]. intros k Hk. by rewrite lookup_insert_ne.
Qed.

(** whatever it is asked, [update] either leaves the table as it was or
    overwrites the one row the input's id reads as, keeping its owner *)
Lemma items_update_inv (id : string) (input : UpdateItemInput.t) (U : User.t)
    (db : gmap string Item.t) :
  (ItemsService.update id input U db).1 = db \/
  exists stored key r item,
    ItemsService.findOne id U db = inr stored /\
    Sql.uuid_in (UpdateItemInput.id input) = Some key /\
    db !! key = Some r /\ Item.userId item = Item.userId r /\
    (ItemsService.update id input U db).1 = <[key := item]> db.
Proof.
  unfold ItemsService.update, ItemsService.preload, ItemsService.save.
  destruct (ItemsService.findOne id U db) as [e|stored]; [by left|].
  destruct (Sql.uuid_in (UpdateItemInput.id input)) as [key|] eqn:Hkey;
    [|by left].
  simpl. destruct (db !! key) as [r|] eqn:Hr; [|by left].
  destruct (String.eqb (Item.id r) (UpdateItemInput.id input)) eqn:Heq;
    [|by left].
  simpl. rewrite Hkey, Hr, Heq. right. eexists stored, key, r, _.
  do 3 (split; [done|]). split; [|reflexivity]. done.
Qed.

Lemma lists_update_inv (id : string) (input : UpdateListInput.t) (U : User.t)
    (db : gmap string List_.t) :
  (ListsService.update id input U db).1 = db \/
  exists stored key r list,
    ListsService.findOne id U db = inr stored /\
    Sql.uuid_in (UpdateListInput.id input) = Some key /\
    db !! key = Some r /\ List_.userId list = List_.userId r /\
    (ListsService.update id input U db).1 = <[key := list]> db.
Proof.
  unfold ListsService.update, ListsService.preload, ListsService.save.
  destruct (ListsService.findOne id U db) as [e|stored]; [by left|].
  destruct (Sql.uuid_in (UpdateListInput.id input)) as [key|] eqn:Hkey;
    [|by left].
  simpl. destruct (db !! key) as [r|] eqn:Hr; [|by left].
  destruct (String.eqb (List_.id r) (UpdateListInput.id input)) eqn:Heq;
    [|by left].
  simpl. rewrite Hkey, Hr, Heq. right. eexists stored, key, r, _.
  do 3 (split; [done|]). split; [|reflexivity]. done.
Qed.

(** C8 (as the code behaves).  The ownership check looks at the [id]
    argument, but the record that is loaded, merged and saved is the one
    named by the id inside the input.  Called with the id of her own item
    (ending in 01) and an input naming Bob's item (ending in 02), Alice
    rewrites Bob's item, which [findOne] refuses to show her, while her
    own stays as it was; the same happens on lists. *)
Theorem update_saves_the_record_named_by_the_input :
  let item_input :=
    UpdateItemInput.mk "11111111-1111-4111-8111-111111111102"
      (Some "Soy milk") None in
  let list_input :=
    UpdateListInput.mk "22222222-2222-4222-8222-222222222202"
      (Some "Hardware") in
  (ItemsService.findOne "11111111-1111-4111-8111-111111111102" Fixtures.alice
     Fixtures.items
     = inl (NotFoundException
         "Item with id: 11111111-1111-4111-8111-111111111102 not found") /\
   ItemsService.update "11111111-1111-4111-8111-111111111101" item_input
     Fixtures.alice Fixtures.items
     = (<["11111111-1111-4111-8111-111111111102" :=
            Item.mk "11111111-1111-4111-8111-111111111102" "Soy milk" None
              "00000000-0000-4000-8000-0000000000b2"]> Fixtures.items,
        inr (Item.mk "11111111-1111-4111-8111-111111111102" "Soy milk" None
               "00000000-0000-4000-8000-0000000000b2")) /\
   Fixtures.items !! "11111111-1111-4111-8111-111111111102"
     = Some (Item.mk "11111111-1111-4111-8111-111111111102" "Milk" None
               "00000000-0000-4000-8000-0000000000b2")) /\
  (ListsService.findOne "22222222-2222-4222-8222-222222222202" Fixtures.alice
     Fixtures.lists
     = inl (NotFoundException
         "List with id: 22222222-2222-4222-8222-222222222202 not found") /\
   ListsService.update "22222222-2222-4222-8222-222222222201" list_input
     Fixtures.alice Fixtures.lists
     = (<["22222222-2222-4222-8222-222222222202" :=
            List_.mk "22222222-2222-4222-8222-222222222202" "Hardware"
              "00000000-0000-4000-8000-0000000000b2"]> Fixtures.lists,
        inr (List_.mk "22222222-2222-4222-8222-222222222202" "Hardware"
               "00000000-0000-4000-8000-0000000000b2")) /\
   Fixtures.lists !! "22222222-2222-4222-8222-222222222202"
     = Some (List_.mk "22222222-2222-4222-8222-222222222202" "Groceries"
               "00000000-0000-4000-8000-0000000000b2")).
Proof. repeat split; vm_compute; reflexivity. Qed.

(** ** Invariants of the tables *)

Lemma save_keeps_keyed (u : User.t) (db db' : gmap string User.t)
    (result : Result User.t) :
  Repository.keyed User.id db ->
  UsersRepository.save u db = (db', result) ->
  Repository.keyed User.id db'.
Proof.
  intros Hkeyed. unfold UsersRepository.save.
  destruct (UsersRepository.email_taken _ _ _); intros [= <- _]; [done|].
  apply map_Forall_insert_2; [|done]. apply persisted_fields.
Qed.

Lemma users_operations_keep_keyed (db : gmap string User.t) :
  Repository.keyed User.id db ->
  (forall `{Bcrypt} roles active uuid input,
     Repository.keyed User.id
       (UsersService.create roles active uuid input db).1) /\
  (forall id input actor,
     Repository.keyed User.id (UsersService.update id input actor db).1) /\
  (forall id admin,
     Repository.keyed User.id (UsersService.block id admin db).1).
Proof.
  intros Hkeyed. split; [|split].
  - intros B roles active uuid input.
    unfold UsersService.create, UsersRepository.insert.
    destruct (db !! uuid); [done|].
    match goal with
    | |- context [UsersRepository.save ?u db] =>
        destruct (UsersRepository.save u db) as [db1 r] eqn:Hsave
    end.
    apply (save_keeps_keyed _ _ _ _ Hkeyed) in Hsave. by destruct r.
  - intros id input actor. unfold UsersService.update.
    destruct (UsersService.preload id input db) as [u|]; [|done].
    match goal with
    | |- context [UsersRepository.save ?u db] =>
        destruct (UsersRepository.save u db) as [db1 r] eqn:Hsave
    end.
    apply (save_keeps_keyed _ _ _ _ Hkeyed) in Hsave. by destruct r.
  - intros id admin. unfold UsersService.block.
    destruct (UsersService.findOneById id db) as [e|u]; [done|].
    match goal with
    | |- context [UsersRepository.save ?u db] =>
        destruct (UsersRepository.save u db) as [db1 r] eqn:Hsave
    end.
    by apply (save_keeps_keyed _ _ _ _ Hkeyed) in Hsave.
Qed.

(** at most one list item per (list, item) pair, whatever [create] and
    [update] are asked to do *)
Lemma listItem_operations_keep_unique_pairs (db : gmap string ListItem.t) :
  ListItemsRepository.unique_pairs db ->
  (forall uuid input lists items,
     ListItemsRepository.unique_pairs
       (ListItemService.create uuid input lists items db).1) /\
  (forall id input,
     ListItemsRepository.unique_pairs (ListItemService.update id input db).1).
Proof.
  intros Huniq. split.
  - intros uuid input lists items. unfold ListItemService.create.
    match goal with
    | |- context [ListItemsRepository.insert uuid ?row lists items db] =>
        destruct (ListItemsRepository.insert uuid row lists items db)
          as [db1 [e|saved]] eqn:Hins
    end.
    + revert Hins. unfold ListItemsRepository.insert.
      destruct (db !! uuid); [by intros [= <- _]|]. simpl.
      destruct (ListItemsRepository.pair_taken _ _ _ _); [by intros [= <- _]|].
      destruct (lists !! _); [|by intros [= <- _]].
      by destruct (items !! _); intros [= <- _].
    + simpl. by eapply insert_keeps_unique_pairs.
  - intros id input. unfold ListItemService.update.
    destruct (ListItemsRepository.execute_update id _ db) as [db1 [e|[]]] eqn:Hupd.
    + revert Hupd. unfold ListItemsRepository.execute_update.
      destruct (db !! id); [|by intros [= <- _]].
      destruct (delete id db !! _); [by intros [= <- _]|].
      by destruct (ListItemsRepository.pair_taken _ _ _ _); intros [= <- _].
    + simpl. by eapply execute_update_keeps_unique_pairs.
Qed.

(** * Further properties of the services *)

(** ** Creating and removing owned records *)

(** X1. When the database draws a uuid that is not in use, [create] on
    items and on lists stores exactly one new record, owned by the
    creating user and carrying the input's fields; [findOne] returns it to
    its owner and answers any other user with NotFound; every id that
    does not read as the new uuid is answered as before, for whoever
    asks. *)
Theorem create_then_findOne (uuid : string) (itemInput : CreateItemInput.t)
    (listInput : CreateListInput.t) (U V : User.t)
    (items : gmap string Item.t) (lists : gmap string List_.t) :
  Sql.uuid_in uuid = Some uuid ->
  items !! uuid = None ->
  lists !! uuid = None ->
  let newItem := Item.mk uuid (CreateItemInput.name itemInput)
                   (CreateItemInput.quantityUnits itemInput) (User.id U) in
  let newList := List_.mk uuid (CreateListInput.name listInput) (User.id U) in
  let items' := (ItemsService.create uuid itemInput U items).1 in
  let lists' := (ListsService.create uuid listInput U lists).1 in
  (ItemsService.create uuid itemInput U items
     = (<[uuid := newItem]> items, inr newItem) /\
   ItemsService.findOne uuid U items' = inr newItem /\
   (User.id V <> User.id U ->
    ItemsService.findOne uuid V items'
      = inl (NotFoundException ("Item with id: " +:+ uuid +:+ " not found"))) /\
   (forall id, Sql.uuid_in id <> Some uuid ->
      ItemsService.findOne id V items' = ItemsService.findOne id V items)) /\
  (ListsService.create uuid listInput U lists
     = (<[uuid := newList]> lists, inr newList) /\
   ListsService.findOne uuid U lists' = inr newList /\
   (User.id V <> User.id U ->
    ListsService.findOne uuid V lists'
      = inl (NotFoundException ("List with id: " +:+ uuid +:+ " not found"))) /\
   (forall id, Sql.uuid_in id <> Some uuid ->
      ListsService.findOne id V lists' = ListsService.findOne id V lists)).
Proof.
  intros Huuid Hitems Hlists newItem newList items' lists'.
  assert (Hi : ItemsService.create uuid itemInput U items
               = (<[uuid := newItem]> items, inr newItem))
    by (unfold ItemsService.create; by rewrite Hitems).
  assert (Hl : ListsService.create uuid listInput U lists
               = (<[uuid := newList]> lists, inr newList))
    by (unfold ListsService.create; by rewrite Hlists).
  subst items' lists'. rewrite Hi, Hl. simpl. split.
  - split; [done|]. split; [|split].
    + apply (items_findOne_ok uuid uuid); [done|]. by rewrite lookup_insert_eq.
    + intros Hne. apply (items_findOne_fails uuid uuid); [done|].
      intros (r & Hr & Hown).
      rewrite lookup_insert_eq in Hr. injection Hr as <-. simpl in Hown.
      congruence.
    + intros id Hid. unfold ItemsService.findOne, Repository.findOneBy.
      destruct (Sql.uuid_in id) as [key|]; [|done].
      rewrite lookup_insert_ne; [done|congruence].
  - split; [done|]. split; [|split].
    + apply (lists_findOne_ok uuid uuid); [done|]. by rewrite lookup_insert_eq.
    + intros Hne. apply (lists_findOne_fails uuid uuid); [done|].
      intros (r & Hr & Hown).
      rewrite lookup_insert_eq in Hr. injection Hr as <-. simpl in Hown.
      congruence.
    + intros id Hid. unfold ListsService.findOne, Repository.findOneBy.
      destruct (Sql.uuid_in id) as [key|]; [|done].
      rewrite lookup_insert_ne; [done|congruence].
Qed.

Lemma create_then_findOne_witness :
  ItemsService.findOne "11111111-1111-4111-8111-111111111103" Fixtures.alice
    (ItemsService.create "11111111-1111-4111-8111-111111111103"
       (CreateItemInput.mk "Eggs" None) Fixtures.alice Fixtures.items).1
  = inr (Item.mk "11111111-1111-4111-8111-111111111103" "Eggs" None
           "00000000-0000-4000-8000-0000000000a1") /\
  ListsService.findOne "22222222-2222-4222-8222-222222222203" Fixtures.bob
    (ListsService.create "22222222-2222-4222-8222-222222222203"
       (CreateListInput.mk "Party") Fixtures.alice Fixtures.lists).1
  = inl (NotFoundException
      "List with id: 22222222-2222-4222-8222-222222222203 not found").
Proof.
  split.
  - destruct (create_then_findOne "11111111-1111-4111-8111-111111111103"
                (CreateItemInput.mk "Eggs" None)
                (CreateListInput.mk "Party") Fixtures.alice Fixtures.bob
                Fixtures.items ∅) as ((_ & Hfound & _) & _);
      [reflexivity|reflexivity|reflexivity|exact Hfound].
  - destruct (create_then_findOne "22222222-2222-4222-8222-222222222203"
                (CreateItemInput.mk "Eggs" None)
                (CreateListInput.mk "Party") Fixtures.alice Fixtures.bob
                ∅ Fixtures.lists) as (_ & (_ & _ & Hother & _));
      [reflexivity|reflexivity|reflexivity|].
    apply Hother. discriminate.
Defined.

(** an id that spells the new uuid another way finds the new record as
    well: the ids answered as before are those that do not read as the
    new uuid, whatever their text *)
Example create_then_findOne_other_spelling :
  let created :=
    (ItemsService.create "11111111-1111-4111-8111-111111111103"
       (CreateItemInput.mk "Eggs" None) Fixtures.alice Fixtures.items).1 in
  ItemsService.findOne "{11111111111141118111111111111103}" Fixtures.alice
    Fixtures.items
  = inl (NotFoundException
      "Item with id: {11111111111141118111111111111103} not found") /\
  ItemsService.findOne "{11111111111141118111111111111103}" Fixtures.alice
    created
  = inr (Item.mk "11111111-1111-4111-8111-111111111103" "Eggs" None
           "00000000-0000-4000-8000-0000000000a1").
Proof. split; reflexivity. Qed.

Lemma keyed_lookup {R : Type} (key : R -> string) (db : gmap string R)
    (k : string) (r : R) :
  Repository.keyed key db -> db !! k = Some r -> key r = k.
Proof. intros Hkeyed Hr. exact (Hkeyed k r Hr). Qed.

Lemma items_referenced_spec (id : string) (listItems : gmap string ListItem.t) :
  ItemsService.referenced id listItems = true <->
  exists k li, listItems !! k = Some li /\ ListItem.itemId li = id.
Proof.
  unfold ItemsService.referenced.
  rewrite bool_decide_eq_true, Exists_exists. split.
  - intros (li & Hin & Hli). apply elem_of_rows in Hin as [k Hk]. by exists k, li.
  - intros (k & li & Hk & Hli). exists li. split; [|done].
    apply elem_of_rows. by exists k.
Qed.

Lemma lists_referenced_spec (id : string) (listItems : gmap string ListItem.t) :
  ListsService.referenced id listItems = true <->
  exists k li, listItems !! k = Some li /\ ListItem.listId li = id.
Proof.
  unfold ListsService.referenced.
  rewrite bool_decide_eq_true, Exists_exists. split.
  - intros (li & Hin & Hli). apply elem_of_rows in Hin as [k Hk]. by exists k, li.
  - intros (k & li & Hk & Hli). exists li. split; [|done].
    apply elem_of_rows. by exists k.
Qed.

(** [findOne] by another user is not affected by the deletion of a record
    that user does not own *)
Lemma items_findOne_delete_other (id' : string) (V : User.t) (stored : Item.t)
    (items : gmap string Item.t) :
  items !! Item.id stored = Some stored ->
  Item.userId stored <> User.id V ->
  ItemsService.findOne id' V (delete (Item.id stored) items)
  = ItemsService.findOne id' V items.
Proof.
  intros Hstored Hother. unfold ItemsService.findOne, Repository.findOneBy.
  destruct (Sql.uuid_in id') as [key'|]; [|done].
  destruct (decide (key' = Item.id stored)) as [->|Hkey'].
  - rewrite lookup_delete_eq, Hstored.
    destruct (ItemsService.owned_by V stored) eqn:HV; [|done].
    by apply items_owned_by_spec in HV.
  - by rewrite lookup_delete_ne.
Qed.

Lemma lists_findOne_delete_other (id' : string) (V : User.t) (stored : List_.t)
    (lists : gmap string List_.t) :
  lists !! List_.id stored = Some stored ->
  List_.userId stored <> User.id V ->
  ListsService.findOne id' V (delete (List_.id stored) lists)
  = ListsService.findOne id' V lists.
Proof.
  intros Hstored Hother. unfold ListsService.findOne, Repository.findOneBy.
  destruct (Sql.uuid_in id') as [key'|]; [|done].
  destruct (decide (key' = List_.id stored)) as [->|Hkey'].
  - rewrite lookup_delete_eq, Hstored.
    destruct (ListsService.owned_by V stored) eqn:HV; [|done].
    by apply lists_owned_by_spec in HV.
  - by rewrite lookup_delete_ne.
Qed.

(** X2. On a table whose rows sit under their own ids, [remove] on items
    and on lists fails exactly as [findOne] does and then changes
    nothing.  When [findOne] finds the record and a list item points to
    it, the foreign key refuses the DELETE: the driver's error 23503
    leaves the method and nothing changes.  When no list item points to
    it, [remove] deletes that record only and returns its fields with the
    id it was called with, after which [findOne] for the id throws
    NotFound.  Whatever the outcome, another user's [findOne] is answered
    as before. *)
Theorem remove_deletes_only_the_owned_record (id : string) (U V : User.t)
    (listItems : gmap string ListItem.t)
    (items : gmap string Item.t) (lists : gmap string List_.t) :
  Repository.keyed Item.id items ->
  Repository.keyed List_.id lists ->
  (match ItemsService.findOne id U items with
   | inl e => ItemsService.remove id U listItems items = (items, inl e)
   | inr stored =>
       ((exists k li, listItems !! k = Some li
                      /\ ListItem.itemId li = Item.id stored) ->
        ItemsService.remove id U listItems items
        = (items,
           inl (QueryFailedError "23503"
                  ("Key (id)=(" +:+ Item.id stored
                   +:+ ") is still referenced from table "
                   +:+ Sql.dquote +:+ "listItems" +:+ Sql.dquote +:+ ".")))) /\
       (~ (exists k li, listItems !! k = Some li
                        /\ ListItem.itemId li = Item.id stored) ->
        ItemsService.remove id U listItems items
        = (delete (Item.id stored) items,
           inr (Item.mk id (Item.name stored) (Item.quantityUnits stored)
                  (Item.userId stored))) /\
        ItemsService.findOne id U (delete (Item.id stored) items)
        = inl (NotFoundException ("Item with id: " +:+ id +:+ " not found")))
   end /\
   (User.id V <> User.id U ->
    forall id', ItemsService.findOne id' V
                  (ItemsService.remove id U listItems items).1
                = ItemsService.findOne id' V items)) /\
  (match ListsService.findOne id U lists with
   | inl e => ListsService.remove id U listItems lists = (lists, inl e)
   | inr stored =>
       ((exists k li, listItems !! k = Some li
                      /\ ListItem.listId li = List_.id stored) ->
        ListsService.remove id U listItems lists
        = (lists,
           inl (QueryFailedError "23503"
                  ("Key (id)=(" +:+ List_.id stored
                   +:+ ") is still referenced from table "
                   +:+ Sql.dquote +:+ "listItems" +:+ Sql.dquote +:+ ".")))) /\
       (~ (exists k li, listItems !! k = Some li
                        /\ ListItem.listId li = List_.id stored) ->
        ListsService.remove id U listItems lists
        = (delete (List_.id stored) lists,
           inr (List_.mk id (List_.name stored) (List_.userId stored))) /\
        ListsService.findOne id U (delete (List_.id stored) lists)
        = inl (NotFoundException ("List with id: " +:+ id +:+ " not found")))
   end /\
   (User.id V <> User.id U ->
    forall id', ListsService.findOne id' V
                  (ListsService.remove id U listItems lists).1
                = ListsService.findOne id' V lists)).
Proof.
  intros Hitems Hlists. split.
  - unfold ItemsService.remove.
    destruct (ItemsService.findOne id U items) as [e|stored] eqn:Hfind;
      [by split|].
    apply items_findOne_inv in Hfind as (key & Hkey & Hstored & Hown).
    pose proof (keyed_lookup _ _ _ _ Hitems Hstored) as Hid.
    destruct (ItemsService.referenced (Item.id stored) listItems) eqn:Href.
    + apply items_referenced_spec in Href. split; [|done].
      split; [done|]. intros Hno. by destruct Hno.
    + assert (Hno : ~ exists k li, listItems !! k = Some li
                       /\ ListItem.itemId li = Item.id stored).
      { intros Hex. apply items_referenced_spec in Hex. congruence. }
      split; [split|].
      * intros Hex. by destruct Hno.
      * intros _. split; [done|]. rewrite Hid.
        apply (items_findOne_fails id key); [done|].
        intros (r & Hr & _). by rewrite lookup_delete_eq in Hr.
      * intros Hne id'. simpl. apply items_findOne_delete_other; congruence.
  - unfold ListsService.remove.
    destruct (ListsService.findOne id U lists) as [e|stored] eqn:Hfind;
      [by split|].
    apply lists_findOne_inv in Hfind as (key & Hkey & Hstored & Hown).
    pose proof (keyed_lookup _ _ _ _ Hlists Hstored) as Hid.
    destruct (ListsService.referenced (List_.id stored) listItems) eqn:Href.
    + apply lists_referenced_spec in Href. split; [|done].
      split; [done|]. intros Hno. by destruct Hno.
    + assert (Hno : ~ exists k li, listItems !! k = Some li
                       /\ ListItem.listId li = List_.id stored).
      { intros Hex. apply lists_referenced_spec in Hex. congruence. }
      split; [split|].
      * intros Hex. by destruct Hno.
      * intros _. split; [done|]. rewrite Hid.
        apply (lists_findOne_fails id key); [done|].
        intros (r & Hr & _). by rewrite lookup_delete_eq in Hr.
      * intros Hne id'. simpl. apply lists_findOne_delete_other; congruence.
Qed.

Lemma items_keyed : Repository.keyed Item.id Fixtures.items.
Proof.
  apply map_Forall_insert_2; [done|].
  apply map_Forall_insert_2; [done|]. apply map_Forall_empty.
Qed.

Lemma lists_keyed : Repository.keyed List_.id Fixtures.lists.
Proof.
  apply map_Forall_insert_2; [done|].
  apply map_Forall_insert_2; [done|]. apply map_Forall_empty.
Qed.

(** Alice removes her item, which no list item points to; Bob's removal
    of his Milk is refused while it is on his Groceries list; Alice is
    told Bob's list does not exist. *)
Lemma remove_deletes_only_the_owned_record_witness :
  ItemsService.remove "11111111-1111-4111-8111-111111111101" Fixtures.alice
    Fixtures.listItems Fixtures.items
  = (delete "11111111-1111-4111-8111-111111111101" Fixtures.items,
     inr (Item.mk "11111111-1111-4111-8111-111111111101" "abc" (Some "kg")
            "00000000-0000-4000-8000-0000000000a1")) /\
  (ItemsService.remove "11111111-1111-4111-8111-111111111102" Fixtures.bob
     Fixtures.listItems Fixtures.items).1 = Fixtures.items /\
  isHttpException
    (QueryFailedError "23503"
       ("Key (id)=(11111111-1111-4111-8111-111111111102) is still referenced from table "
        +:+ Sql.dquote +:+ "listItems" +:+ Sql.dquote +:+ ".")) = false /\
  ListsService.remove "22222222-2222-4222-8222-222222222202" Fixtures.alice
    Fixtures.listItems Fixtures.lists
  = (Fixtures.lists,
     inl (NotFoundException
            "List with id: 22222222-2222-4222-8222-222222222202 not found")).
Proof.
  split; [|split; [|split]].
  - destruct (remove_deletes_only_the_owned_record
                "11111111-1111-4111-8111-111111111101" Fixtures.alice
                Fixtures.bob Fixtures.listItems Fixtures.items Fixtures.lists
                items_keyed lists_keyed) as ((Hremove & _) & _).
    apply Hremove. intros (k & li & Hk & Hli).
    assert (Href : ItemsService.referenced
                     "11111111-1111-4111-8111-111111111101" Fixtures.listItems
                   = true)
      by (apply items_referenced_spec; by exists k, li).
    vm_compute in Href. discriminate Href.
  - destruct (remove_deletes_only_the_owned_record
                "11111111-1111-4111-8111-111111111102" Fixtures.bob
                Fixtures.alice Fixtures.listItems Fixtures.items Fixtures.lists
                items_keyed lists_keyed) as ((Hremove & _) & _).
    destruct Hremove as [Hrefused _]. rewrite Hrefused; [done|].
    exists "33333333-3333-4333-8333-333333333309". eexists.
    split; reflexivity.
  - reflexivity.
  - destruct (remove_deletes_only_the_owned_record
                "22222222-2222-4222-8222-222222222202" Fixtures.alice
                Fixtures.bob Fixtures.listItems Fixtures.items Fixtures.lists
                items_keyed lists_keyed) as (_ & (Hremove & _)).
    exact Hremove.
Defined.

(** ** Counting *)

Lemma rows_insert {R : Type} (db : gmap string R) (k : string) (x : R) :
  db !! k = None -> Repository.rows (<[k := x]> db) ≡ₚ x :: Repository.rows db.
Proof.
  intros Hfresh. unfold Repository.rows.
  by rewrite (map_to_list_insert db k x Hfresh).
Qed.

Lemma rows_delete {R : Type} (db : gmap string R) (k : string) (x : R) :
  db !! k = Some x -> Repository.rows db ≡ₚ x :: Repository.rows (delete k db).
Proof.
  intros Hx. unfold Repository.rows.
  by rewrite <- (map_to_list_delete db k x Hx).
Qed.

Lemma count_cons {R : Type} (where_ : R -> bool) (x : R) (l : list R) :
  length (filter (fun r => where_ r = true) (x :: l))
  = (if where_ x then 1 else 0) + length (filter (fun r => where_ r = true) l).
Proof.
  destruct (where_ x) eqn:Hx.
  - by rewrite filter_cons_True.
  - rewrite filter_cons_False; [done|]. by rewrite Hx.
Qed.

Lemma count_insert {R : Type} (where_ : R -> bool) (db : gmap string R)
    (k : string) (x : R) :
  db !! k = None ->
  Repository.count where_ (<[k := x]> db)
  = (if where_ x then 1 else 0) + Repository.count where_ db.
Proof.
  intros Hfresh. unfold Repository.count.
  rewrite (rows_insert db k x Hfresh). apply count_cons.
Qed.

Lemma count_delete {R : Type} (where_ : R -> bool) (db : gmap string R)
    (k : string) (x : R) :
  db !! k = Some x ->
  Repository.count where_ db
  = (if where_ x then 1 else 0) + Repository.count where_ (delete k db).
Proof.
  intros Hx. unfold Repository.count.
  rewrite (rows_delete db k x Hx). apply count_cons.
Qed.

(** an unsearched listing from offset 0: the owned rows, cut at the limit
    when the limit is not 0 *)
Lemma items_findAll_unsearched (U : User.t) (L : nat) (items : gmap string Item.t) :
  ItemsService.findAll U (PaginationArgs.mk 0 L) (SearchArgs.mk None) items
  = let owned := filter (fun r => ItemsService.owned_by U r = true)
                        (Repository.rows items) in
    match L with O => owned | S _ => take L owned end.
Proof.
  unfold ItemsService.findAll, QueryBuilder.getMany. simpl.
  assert (Hholds : forall qb r,
            QueryBuilder.conditions qb = [ItemsService.owned_by U] ->
            QueryBuilder.holds qb r = true <-> ItemsService.owned_by U r = true).
  { intros qb r Hqb. unfold QueryBuilder.holds. rewrite Hqb. simpl.
    by rewrite andb_true_r. }
  destruct L; (f_equal || idtac); try f_equal;
    apply list_filter_iff; intros r; by apply Hholds.
Qed.

Lemma lists_findAll_unsearched (U : User.t) (L : nat) (lists : gmap string List_.t) :
  ListsService.findAll U (PaginationArgs.mk 0 L) (SearchArgs.mk None) lists
  = let owned := filter (fun r => ListsService.owned_by U r = true)
                        (Repository.rows lists) in
    match L with O => owned | S _ => take L owned end.
Proof.
  unfold ListsService.findAll, QueryBuilder.getMany. simpl.
  assert (Hholds : forall qb r,
            QueryBuilder.conditions qb = [ListsService.owned_by U] ->
            QueryBuilder.holds qb r = true <-> ListsService.owned_by U r = true).
  { intros qb r Hqb. unfold QueryBuilder.holds. rewrite Hqb. simpl.
    by rewrite andb_true_r. }
  destruct L; (f_equal || idtac); try f_equal;
    apply list_filter_iff; intros r; by apply Hholds.
Qed.

(** X3. [itemCountByUser] and [listCountByUser] count exactly the
    records an unsearched listing ranges over.  A listing from offset 0
    with a limit L >= 1 returns min(L, count) records, hence all of them
    once L reaches the count; with the limit 0 the query carries no LIMIT
    and the listing returns all of them. *)
Theorem count_is_the_size_of_the_listing (U : User.t) (L : nat)
    (items : gmap string Item.t) (lists : gmap string List_.t) :
  (ItemsService.itemCountByUser U items
     = length (Spec.matching Item.userId Item.name U None items) /\
   length (ItemsService.findAll U (PaginationArgs.mk 0 L) (SearchArgs.mk None) items)
     = (if (L =? 0)%nat then ItemsService.itemCountByUser U items
        else L `min` ItemsService.itemCountByUser U items)) /\
  (ListsService.listCountByUser U lists
     = length (Spec.matching List_.userId List_.name U None lists) /\
   length (ListsService.findAll U (PaginationArgs.mk 0 L) (SearchArgs.mk None) lists)
     = (if (L =? 0)%nat then ListsService.listCountByUser U lists
        else L `min` ListsService.listCountByUser U lists)).
Proof.
  assert (Hi : ItemsService.itemCountByUser U items
               = length (Spec.matching Item.userId Item.name U None items)).
  { unfold ItemsService.itemCountByUser, Repository.count, Spec.matching.
    f_equal. apply list_filter_iff. intros r. rewrite items_owned_by_spec.
    simpl. tauto. }
  assert (Hl : ListsService.listCountByUser U lists
               = length (Spec.matching List_.userId List_.name U None lists)).
  { unfold ListsService.listCountByUser, Repository.count, Spec.matching.
    f_equal. apply list_filter_iff. intros r. rewrite lists_owned_by_spec.
    simpl. tauto. }
  split; (split; [done|]).
  - rewrite items_findAll_unsearched.
    unfold ItemsService.itemCountByUser, Repository.count.
    destruct L; simpl; [done|]. by rewrite length_take.
  - rewrite lists_findAll_unsearched.
    unfold ListsService.listCountByUser, Repository.count.
    destruct L; simpl; [done|]. by rewrite length_take.
Qed.

(** X4. Creating an item under an unused id raises its owner's count by
    one and leaves the count of any other user alone.  Removing an item
    that [findOne] finds and no list item points to lowers the owner's
    count by one and leaves the others' alone; a removal the foreign key
    refuses changes no count. *)
Theorem create_and_remove_move_the_count_by_one (uuid id : string)
    (input : CreateItemInput.t) (U V : User.t)
    (listItems : gmap string ListItem.t) (items : gmap string Item.t) :
  items !! uuid = None ->
  User.id V <> User.id U ->
  let created := (ItemsService.create uuid input U items).1 in
  let removed := (ItemsService.remove id U listItems items).1 in
  (ItemsService.itemCountByUser U created = S (ItemsService.itemCountByUser U items) /\
   ItemsService.itemCountByUser V created = ItemsService.itemCountByUser V items) /\
  (forall stored,
     Repository.keyed Item.id items ->
     ItemsService.findOne id U items = inr stored ->
     (~ (exists k li, listItems !! k = Some li
                      /\ ListItem.itemId li = Item.id stored) ->
      S (ItemsService.itemCountByUser U removed)
        = ItemsService.itemCountByUser U items /\
      ItemsService.itemCountByUser V removed = ItemsService.itemCountByUser V items) /\
     ((exists k li, listItems !! k = Some li
                    /\ ListItem.itemId li = Item.id stored) ->
      removed = items)).
Proof.
  intros Hfresh Hne created removed.
  assert (HV : forall r, Item.userId r = User.id U ->
                         ItemsService.owned_by V r = false).
  { intros r Hr. destruct (ItemsService.owned_by V r) eqn:Hown; [|done].
    apply items_owned_by_spec in Hown. congruence. }
  assert (HU : forall r, Item.userId r = User.id U ->
                         ItemsService.owned_by U r = true)
    by (intros r Hr; by apply items_owned_by_spec).
  subst created removed. split.
  - unfold ItemsService.itemCountByUser.
    unfold ItemsService.create. rewrite Hfresh. simpl.
    by rewrite !(count_insert _ _ _ _ Hfresh), HU, HV.
  - intros stored Hkeyed Hfind.
    unfold ItemsService.remove. rewrite Hfind.
    apply items_findOne_inv in Hfind as (key & Hkey & Hstored & Hown).
    rewrite <- (keyed_lookup _ _ _ _ Hkeyed Hstored) in Hstored.
    destruct (ItemsService.referenced (Item.id stored) listItems) eqn:Href.
    + split; [|done]. intros Hno. exfalso. apply Hno.
      by apply items_referenced_spec.
    + split.
      * intros _. simpl. unfold ItemsService.itemCountByUser.
        rewrite (count_delete (ItemsService.owned_by U) _ _ _ Hstored).
        rewrite (count_delete (ItemsService.owned_by V) _ _ _ Hstored).
        by rewrite HU, HV.
      * intros Hex. apply items_referenced_spec in Hex. congruence.
Qed.

Lemma create_and_remove_move_the_count_by_one_witness :
  ItemsService.itemCountByUser Fixtures.alice
    (ItemsService.create "11111111-1111-4111-8111-111111111103"
       (CreateItemInput.mk "Eggs" None) Fixtures.alice Fixtures.items).1 = 2 /\
  ItemsService.itemCountByUser Fixtures.alice
    (ItemsService.remove "11111111-1111-4111-8111-111111111101" Fixtures.alice
       Fixtures.listItems Fixtures.items).1 = 0.
Proof.
  destruct (create_and_remove_move_the_count_by_one
              "11111111-1111-4111-8111-111111111103"
              "11111111-1111-4111-8111-111111111101"
              (CreateItemInput.mk "Eggs" None) Fixtures.alice Fixtures.bob
              Fixtures.listItems Fixtures.items)
    as ((Hcreated & _) & Hremove).
  - reflexivity.
  - discriminate.
  - split.
    + rewrite Hcreated. vm_compute. reflexivity.
    + destruct (Hremove (Item.mk "11111111-1111-4111-8111-111111111101" "abc"
                           (Some "kg") "00000000-0000-4000-8000-0000000000a1")
                  items_keyed eq_refl) as [Hremoved _].
      destruct Hremoved as [Hremoved _].
      { intros (k & li & Hk & Hli).
        assert (Href : ItemsService.referenced
                         "11111111-1111-4111-8111-111111111101"
                         Fixtures.listItems = true)
          by (apply items_referenced_spec; exists k, li; split; [exact Hk|exact Hli]).
        vm_compute in Href. discriminate Href. }
      apply eq_add_S. rewrite Hremoved. vm_compute. reflexivity.
Defined.

(** ** What [update] leaves alone *)

(** X5. Whatever id and input it is called with, and whether it succeeds
    or throws, [update] on items and on lists neither adds nor removes a
    record, and the record under every id keeps its owner. *)
Theorem update_keeps_ids_and_owners (id : string)
    (itemInput : UpdateItemInput.t) (listInput : UpdateListInput.t)
    (U : User.t) (items : gmap string Item.t) (lists : gmap string List_.t) :
  let items' := (ItemsService.update id itemInput U items).1 in
  let lists' := (ListsService.update id listInput U lists).1 in
  (forall k, is_Some (items' !! k) <-> is_Some (items !! k)) /\
  (forall k r', items' !! k = Some r' ->
     exists r, items !! k = Some r /\ Item.userId r' = Item.userId r) /\
  (forall k, is_Some (lists' !! k) <-> is_Some (lists !! k)) /\
  (forall k r', lists' !! k = Some r' ->
     exists r, lists !! k = Some r /\ List_.userId r' = List_.userId r).
Proof.
  intros items' lists'. subst items' lists'.
  assert (Hitems :
    (forall k, is_Some ((ItemsService.update id itemInput U items).1 !! k)
               <-> is_Some (items !! k)) /\
    (forall k r', (ItemsService.update id itemInput U items).1 !! k = Some r' ->
       exists r, items !! k = Some r /\ Item.userId r' = Item.userId r)).
  { destruct (items_update_inv id itemInput U items)
      as [->|(stored & key & r & item & _ & _ & Hr & Hown & ->)]; [by eauto|].
    split; intros k.
    - rewrite lookup_insert. case_decide; [subst; by rewrite Hr|done].
    - intros r'. rewrite lookup_insert. case_decide.
      + subst k. intros [= <-]. by exists r.
      + by eauto. }
  assert (Hlists :
    (forall k, is_Some ((ListsService.update id listInput U lists).1 !! k)
               <-> is_Some (lists !! k)) /\
    (forall k r', (ListsService.update id listInput U lists).1 !! k = Some r' ->
       exists r, lists !! k = Some r /\ List_.userId r' = List_.userId r)).
  { destruct (lists_update_inv id listInput U lists)
      as [->|(stored & key & r & list & _ & _ & Hr & Hown & ->)]; [by eauto|].
    split; intros k.
    - rewrite lookup_insert. case_decide; [subst; by rewrite Hr|done].
    - intros r'. rewrite lookup_insert. case_decide.
      + subst k. intros [= <-]. by exists r.
      + by eauto. }
  tauto.
Qed.

(** ** The default page *)

Lemma length_filter_weaken {A : Type} (P Q : A -> Prop)
    `{!forall x, Decision (P x)} `{!forall x, Decision (Q x)} (l : list A) :
  (forall x, P x -> Q x) ->
  length (filter P l) <= length (filter Q l).
Proof.
  intros HPQ. induction l as [|x l IH]; [done|].
  rewrite !filter_cons.
  destruct (decide (P x)) as [HP|HP].
  - rewrite decide_True by auto. simpl. lia.
  - destruct (decide (Q x)); simpl; lia.
Qed.

Lemma holds_andWhere {R : Type} (c : R -> bool) (qb : QueryBuilder.t R) (r : R) :
  QueryBuilder.holds (QueryBuilder.andWhere c qb) r
  = QueryBuilder.holds qb r && c r.
Proof.
  unfold QueryBuilder.holds, QueryBuilder.andWhere. simpl.
  rewrite forallb_app. simpl. by rewrite andb_true_r.
Qed.

(** X6. [PaginationArgs] defaults both offset and limit to 10, so a
    listing asked for with the default arguments starts at the eleventh
    matching record: for an owner holding at most ten records it is
    empty, whatever the search. *)
Theorem default_page_skips_the_first_ten (U : User.t) (searchArgs : SearchArgs.t)
    (items : gmap string Item.t) (lists : gmap string List_.t) :
  ItemsService.itemCountByUser U items <= 10 ->
  ListsService.listCountByUser U lists <= 10 ->
  ItemsService.findAll U PaginationArgs.default searchArgs items = [] /\
  ListsService.findAll U PaginationArgs.default searchArgs lists = [].
Proof.
  intros Hitems Hlists. split.
  - unfold ItemsService.findAll, QueryBuilder.getMany.
    match goal with
    | |- context [filter ?P (Repository.rows items)] =>
        assert (length (filter P (Repository.rows items)) <= 10) as Hlen
    end.
    { etrans; [|exact Hitems]. unfold ItemsService.itemCountByUser, Repository.count.
      apply length_filter_weaken. intros r.
      destruct searchArgs as [[s|]]; simpl; [destruct (Js.truthy_str s)|];
        rewrite ?holds_andWhere; unfold QueryBuilder.holds; simpl;
        rewrite ?andb_true_iff; tauto. }
    destruct searchArgs as [[s|]]; simpl in *; [destruct (Js.truthy_str s)|];
      simpl in *; by rewrite drop_ge.
  - unfold ListsService.findAll, QueryBuilder.getMany.
    match goal with
    | |- context [filter ?P (Repository.rows lists)] =>
        assert (length (filter P (Repository.rows lists)) <= 10) as Hlen
    end.
    { etrans; [|exact Hlists]. unfold ListsService.listCountByUser, Repository.count.
      apply length_filter_weaken. intros r.
      destruct searchArgs as [[s|]]; simpl; [destruct (Js.truthy_str s)|];
        rewrite ?holds_andWhere; unfold QueryBuilder.holds; simpl;
        rewrite ?andb_true_iff; tauto. }
    destruct searchArgs as [[s|]]; simpl in *; [destruct (Js.truthy_str s)|];
      simpl in *; by rewrite drop_ge.
Qed.

Lemma default_page_skips_the_first_ten_witness :
  ItemsService.findAll Fixtures.alice PaginationArgs.default
    (SearchArgs.mk None) Fixtures.items = [] /\
  ListsService.findAll Fixtures.bob PaginationArgs.default
    (SearchArgs.mk (Some "gro")) Fixtures.lists = [].
Proof.
  split.
  - apply (default_page_skips_the_first_ten Fixtures.alice (SearchArgs.mk None)
             Fixtures.items Fixtures.lists); vm_compute; lia.
  - apply (default_page_skips_the_first_ten Fixtures.bob
             (SearchArgs.mk (Some "gro")) Fixtures.items Fixtures.lists);
      vm_compute; lia.
Defined.

(** ** The users table: errors and invariants *)

Lemma email_taken_spec (db : gmap string User.t) (key email : string) :
  UsersRepository.email_taken db key email = true <->
  exists k u, db !! k = Some u /\ k <> key /\ User.email u = email.
Proof.
  unfold UsersRepository.email_taken.
  rewrite bool_decide_eq_true, Exists_exists. split.
  - intros ([k u] & Hin & Hk & He). apply elem_of_map_to_list in Hin.
    by exists k, u.
  - intros (k & u & Hu & Hk & He). exists (k, u).
    split; [by apply elem_of_map_to_list|done].
Qed.

Lemma email_taken_false (db : gmap string User.t) (key email : string) :
  UsersRepository.email_taken db key email = false <->
  forall k u, db !! k = Some u -> User.email u = email -> k = key.
Proof.
  rewrite <- not_true_iff_false, email_taken_spec. split.
  - intros Hno k u Hu He. destruct (decide (k = key)) as [|Hne]; [done|].
    exfalso. apply Hno. by exists k, u.
  - intros Hall (k & u & Hu & Hk & He). apply Hk. by eapply Hall.
Qed.

Lemma handleDBErrors_kind {A : Type} (error : Exception) :
  exists message,
    @UsersService.handleDBErrors A error = inl (BadRequestException message)
    \/ @UsersService.handleDBErrors A error
       = inl (InternalServerErrorException message).
Proof.
  destruct error; simpl; try by (eexists; right).
  destruct (String.eqb code "23505"); eexists; [by left|by right].
Qed.

Lemma save_error (u : User.t) (db db' : gmap string User.t) (e : Exception) :
  UsersRepository.save u db = (db', inl e) -> db' = db.
Proof.
  unfold UsersRepository.save.
  destruct (UsersRepository.email_taken _ _ _); [|discriminate].
  by intros [= <- _].
Qed.

(** X7. [UsersService.update] for an id that is not in the table leaves
    the table as it is and reports an Internal error with the message
    "Please check server logs": the NotFound it throws inside its own
    [try] is caught and handed to [handleDBErrors]. *)
Theorem users_update_missing_id_is_internal_error (id : string)
    (input : UpdateUserInput.t) (actor : User.t) (db : gmap string User.t) :
  db !! id = None ->
  UsersService.update id input actor db
  = (db, inl (InternalServerErrorException "Please check server logs")).
Proof.
  intros Hmissing. unfold UsersService.update, UsersService.preload.
  by rewrite Hmissing.
Qed.

Lemma users_update_missing_id_is_internal_error_witness :
  Fixtures.users !! "00000000-0000-4000-8000-0000000000d9" = None /\
  UsersService.update "00000000-0000-4000-8000-0000000000d9" (UpdateUserInput.mk
      "00000000-0000-4000-8000-0000000000d9" None (Some "Nobody") None None None)
    Fixtures.bob Fixtures.users
  = (Fixtures.users, inl (InternalServerErrorException "Please check server logs")).
Proof.
  split; [reflexivity|].
  apply (users_update_missing_id_is_internal_error
      "00000000-0000-4000-8000-0000000000d9"). reflexivity.
Defined.

(** X8. Whatever goes wrong in [UsersService.create] or
    [UsersService.update], the caller sees a BadRequest or an Internal
    error and nothing else, and the table is left as it was. *)
Theorem users_create_update_errors `{Bcrypt} (defaultRoles : list string)
    (defaultIsActive : bool) (uuid id : string) (signUpInput : SignUpInput.t)
    (input : UpdateUserInput.t) (actor : User.t) (db : gmap string User.t) :
  (forall db' e,
     UsersService.create defaultRoles defaultIsActive uuid signUpInput db
       = (db', inl e) ->
     db' = db /\
     exists message, e = BadRequestException message
                     \/ e = InternalServerErrorException message) /\
  (forall db' e,
     UsersService.update id input actor db = (db', inl e) ->
     db' = db /\
     exists message, e = BadRequestException message
                     \/ e = InternalServerErrorException message).
Proof.
  assert (Hkind : forall (error e : Exception),
            @UsersService.handleDBErrors User.t error = inl e ->
            exists message, e = BadRequestException message
                            \/ e = InternalServerErrorException message).
  { intros error e He.
    destruct (@handleDBErrors_kind User.t error) as (m & [Hm|Hm]);
      rewrite Hm in He; injection He as <-; eauto. }
  split; intros db' e.
  - unfold UsersService.create, UsersRepository.insert.
    destruct (db !! uuid).
    + intros [= <- <-]. split; [done|]. eexists. by left.
    + match goal with
      | |- context [UsersRepository.save ?u db] =>
          destruct (UsersRepository.save u db) as [db1 [e1|v]] eqn:Hsave
      end; [|discriminate].
      intros [= <- He]. split; [by eapply save_error|by eapply Hkind].
  - unfold UsersService.update.
    destruct (UsersService.preload id input db) as [u|].
    + match goal with
      | |- context [UsersRepository.save ?u db] =>
          destruct (UsersRepository.save u db) as [db1 [e1|v]] eqn:Hsave
      end; [|discriminate].
      intros [= <- He]. split; [by eapply save_error|by eapply Hkind].
    + intros [= <- <-]. split; [done|]. eexists. by right.
Qed.

(** X9. If no two users share an email, that is still so after
    [create], [update] or [block], whatever their arguments and whether
    they succeed or throw. *)
Theorem users_operations_keep_emails_unique `{Bcrypt}
    (defaultRoles : list string) (defaultIsActive : bool) (uuid id : string)
    (signUpInput : SignUpInput.t) (input : UpdateUserInput.t) (actor : User.t)
    (db : gmap string User.t) :
  UsersRepository.unique_emails db ->
  UsersRepository.unique_emails
    (UsersService.create defaultRoles defaultIsActive uuid signUpInput db).1 /\
  UsersRepository.unique_emails (UsersService.update id input actor db).1 /\
  UsersRepository.unique_emails (UsersService.block id actor db).1.
Proof.
  intros Huniq.
  assert (Hsave : forall u, UsersRepository.unique_emails
                              (UsersRepository.save u db).1).
  { intros u. unfold UsersRepository.save.
    destruct (UsersRepository.email_taken _ _ _) eqn:Htaken; [done|]. simpl.
    assert (Hemail : User.email (UsersRepository.persisted (db !! User.id u) u)
                     = User.email u).
    { unfold UsersRepository.persisted.
      by destruct (User.password u), (db !! User.id u). }
    pose proof (proj1 (email_taken_false _ _ _) Htaken) as Hfree.
    intros k1 k2 u1 u2. rewrite !lookup_insert. repeat case_decide; subst.
    - done.
    - intros [= <-] H2 He. symmetry. apply (Hfree k2 u2 H2). congruence.
    - intros H1 [= <-] He. apply (Hfree k1 u1 H1). congruence.
    - apply Huniq. }
  split; [|split].
  - unfold UsersService.create, UsersRepository.insert.
    destruct (db !! uuid); [done|].
    match goal with
    | |- context [UsersRepository.save ?u db] =>
        specialize (Hsave u); destruct (UsersRepository.save u db) as [db1 [e|v]]
    end; done.
  - unfold UsersService.update.
    destruct (UsersService.preload id input db) as [u|]; [|done].
    match goal with
    | |- context [UsersRepository.save ?u db] =>
        specialize (Hsave u); destruct (UsersRepository.save u db) as [db1 [e|v]]
    end; done.
  - unfold UsersService.block.
    destruct (UsersService.findOneById id db) as [e|u]; [done|]. apply Hsave.
Qed.

Lemma users_unique_emails : UsersRepository.unique_emails Fixtures.users.
Proof.
  intros k1 k2 u1 u2. unfold Fixtures.users.
  rewrite !lookup_insert_Some, !lookup_empty.
  intros [[<- <-]|[? [[<- <-]|[? ?]]]] [[<- <-]|[? [[<- <-]|[? ?]]]];
    done.
Qed.

Lemma users_operations_keep_emails_unique_witness :
  (UsersService.update "00000000-0000-4000-8000-0000000000a1"
     (UpdateUserInput.mk "00000000-0000-4000-8000-0000000000a1" (Some "bob@example.com")
         None None None None)
     Fixtures.bob Fixtures.users).1 = Fixtures.users /\
  UsersRepository.unique_emails
    (UsersService.update "00000000-0000-4000-8000-0000000000a1"
       (UpdateUserInput.mk "00000000-0000-4000-8000-0000000000a1" (Some
           "bob@example.com") None None None None)
       Fixtures.bob Fixtures.users).1.
Proof.
  split; [vm_compute; reflexivity|].
  apply (@users_operations_keep_emails_unique Fixtures.bcrypt ["user"] true
           "00000000-0000-4000-8000-0000000000c3" "00000000-0000-4000-8000-0000000000a1"
               (SignUpInput.mk "carol@example.com" "Carol" "s3cret")
           _ Fixtures.bob Fixtures.users users_unique_emails).
Defined.

(** ** Signing up, logging in, blocking *)

(** X10. Signing up with an email that a stored user already has is
    refused with a BadRequest whose message is the driver's detail with
    the leading "Key" removed, and stores nothing. *)
Theorem signup_duplicate_email_rejected `{Bcrypt} `{JwtService}
    (defaultRoles : list string) (defaultIsActive : bool) (uuid k : string)
    (input : SignUpInput.t) (u : User.t) (db : gmap string User.t) :
  db !! uuid = None ->
  db !! k = Some u ->
  User.email u = SignUpInput.email input ->
  AuthService.signup defaultRoles defaultIsActive uuid input db
  = (db, inl (BadRequestException
                (" (email)=(" +:+ SignUpInput.email input +:+ ") already exists."))).
Proof.
  intros Hfresh Hu Hemail.
  unfold AuthService.signup, UsersService.create, UsersRepository.insert,
    UsersRepository.save.
  rewrite Hfresh. simpl.
  assert (UsersRepository.email_taken db uuid (SignUpInput.email input) = true)
    as ->; [|reflexivity].
  apply email_taken_spec. exists k, u. split; [done|]. split; [congruence|done].
Qed.

Lemma signup_duplicate_email_rejected_witness :
  @AuthService.signup ["user"] true Fixtures.bcrypt Fixtures.jwt
      "00000000-0000-4000-8000-0000000000c3"
     (SignUpInput.mk "bob@example.com" "Robert" "s3cret") Fixtures.users
  = (Fixtures.users,
     inl (BadRequestException " (email)=(bob@example.com) already exists.")).
Proof.
  exact (@signup_duplicate_email_rejected Fixtures.bcrypt Fixtures.jwt
           ["user"] true "00000000-0000-4000-8000-0000000000c3"
               "00000000-0000-4000-8000-0000000000b2"
           (SignUpInput.mk "bob@example.com" "Robert" "s3cret")
           Fixtures.bob Fixtures.users eq_refl eq_refl eq_refl).
Defined.

(** X11. When the id drawn is unused, no stored user has the email and
    bcrypt accepts the password against the hash it has just made of it,
    [signup] stores the new user with the hashed password and the column
    defaults and returns it with a token signed for its id; a [login]
    with the same email and password then succeeds and returns the same
    user, with the token issued for that login; and validating that id
    returns the user without the password if new users are active by
    default, and throws Unauthorized if they are not. *)
Theorem signup_then_login `{Bcrypt} `{JwtService}
    (defaultRoles : list string) (defaultIsActive : bool) (uuid : string)
    (input : SignUpInput.t) (db : gmap string User.t) :
  db !! uuid = None ->
  (forall k u, db !! k = Some u -> User.email u <> SignUpInput.email input) ->
  compareSync (SignUpInput.password input)
              (hashSync (SignUpInput.password input) 10) = true ->
  let user :=
    User.mk uuid (SignUpInput.fullName input) (SignUpInput.email input)
            (Some (hashSync (SignUpInput.password input) 10))
            defaultRoles defaultIsActive None in
  AuthService.signup defaultRoles defaultIsActive uuid input db
    = (<[uuid := user]> db, inr (AuthResponse.mk (sign uuid) user)) /\
  (exists token,
     AuthService.login
       (LoginInput.mk (SignUpInput.email input) (SignUpInput.password input))
       (<[uuid := user]> db) = inr (AuthResponse.mk token user)) /\
  AuthService.validateUser uuid (<[uuid := user]> db)
    = if defaultIsActive
      then inr (AuthService.delete_password user)
      else inl (UnauthorizedException "User is inactive, talk with an admin").
Proof.
  intros Hfresh Hfree Hbcrypt user.
  assert (Htaken : UsersRepository.email_taken db uuid (SignUpInput.email input)
                   = false).
  { apply email_taken_false. intros k u Hu He. by destruct (Hfree k u Hu). }
  split; [|split].
  - unfold AuthService.signup, UsersService.create, UsersRepository.insert,
      UsersRepository.save.
    rewrite Hfresh. simpl. rewrite Htaken, Hfresh. reflexivity.
  - destruct (findOneByEmail_known (SignUpInput.email input) (<[uuid := user]> db))
      as (u & Hu & He & k & Hk).
    { exists uuid, user. by rewrite lookup_insert_eq. }
    assert (u = user) as ->.
    { rewrite lookup_insert in Hk. case_decide; [congruence|].
      by destruct (Hfree k u Hk). }
    unfold AuthService.login. simpl. rewrite Hu. simpl. rewrite Hbcrypt.
    by eexists.
  - unfold AuthService.validateUser, UsersService.findOneById,
      UsersRepository.findOneByOrFail_id.
    rewrite lookup_insert_eq. simpl. by destruct defaultIsActive.
Qed.

Lemma signup_then_login_witness :
  exists token,
    @AuthService.login Fixtures.bcrypt Fixtures.jwt
       (LoginInput.mk "carol@example.com" "s3cret")
       (@AuthService.signup ["user"] true Fixtures.bcrypt Fixtures.jwt
          "00000000-0000-4000-8000-0000000000c3"
          (SignUpInput.mk "carol@example.com" "Carol" "s3cret")
          Fixtures.users).1
    = inr (AuthResponse.mk token
             (User.mk "00000000-0000-4000-8000-0000000000c3" "Carol"
                "carol@example.com" (Some "hash(s3cret)") ["user"] true None)).
Proof.
  destruct (@signup_then_login Fixtures.bcrypt Fixtures.jwt ["user"] true
              "00000000-0000-4000-8000-0000000000c3"
              (SignUpInput.mk "carol@example.com" "Carol" "s3cret")
              Fixtures.users) as (Hsignup & Hlogin & _).
  - reflexivity.
  - intros k u Hk.
    assert (Hin : (k, u) ∈ map_to_list Fixtures.users)
      by by apply elem_of_map_to_list.
    vm_compute in Hin.
    apply elem_of_cons in Hin as [[= _ ->]|Hin]; [discriminate|].
    apply elem_of_cons in Hin as [[= _ ->]|Hin]; [discriminate|].
    by apply elem_of_nil in Hin.
  - reflexivity.
  - rewrite Hsignup. exact Hlogin.
Defined.



(** X13. A successful [UsersService.update] writes the record stored
    under its [id] argument: the saved record is the stored one with the
    fields present in the input replaced and [lastUpdatedBy] set to the
    acting user, every other record is untouched, and the id carried
    inside the input plays no part. *)
Theorem users_update_merges_onto_the_id_argument (id otherId : string)
    (input : UpdateUserInput.t) (actor saved : User.t)
    (db db' : gmap string User.t) :
  UsersService.update id input actor db = (db', inr saved) ->
  (exists old,
     db !! id = Some old /\
     saved = User.mk id
               (default (User.fullName old) (UpdateUserInput.fullName input))
               (default (User.email old) (UpdateUserInput.email input))
               (match UpdateUserInput.password input with
                | Some p => Some p
                | None => User.password old
                end)
               (default (User.roles old) (UpdateUserInput.roles input))
               (default (User.isActive old) (UpdateUserInput.isActive input))
               (Some (User.id actor))) /\
  db' = <[id := saved]> db /\
  (forall k, k <> id -> db' !! k = db !! k) /\
  UsersService.update id
    (UpdateUserInput.mk otherId (UpdateUserInput.email input)
       (UpdateUserInput.fullName input) (UpdateUserInput.password input)
       (UpdateUserInput.roles input) (UpdateUserInput.isActive input))
    actor db = (db', inr saved).
Proof.
  intros Hupdate.
  assert (Hsame : UsersService.update id
            (UpdateUserInput.mk otherId (UpdateUserInput.email input)
               (UpdateUserInput.fullName input) (UpdateUserInput.password input)
               (UpdateUserInput.roles input) (UpdateUserInput.isActive input))
            actor db = UsersService.update id input actor db) by reflexivity.
  rewrite Hsame. clear Hsame.
  revert Hupdate. unfold UsersService.update, UsersService.preload.
  destruct (db !! id) as [old|] eqn:Hold; [|discriminate].
  match goal with
  | |- context [UsersRepository.save ?u db] =>
      destruct (UsersRepository.save u db) as [db1 [e|v]] eqn:Hsave
  end.
  - destruct e; simpl; try discriminate.
    by destruct (String.eqb code "23505").
  - intros [= <- <-]. pose proof Hsave as Hsave'.
    apply save_ok in Hsave' as [-> Hdb1]. simpl in Hdb1. rewrite Hold in Hdb1.
    assert (Hdb : db1 = <[id := UsersService.set_lastUpdatedBy
             (User.mk id
               (default (User.fullName old) (UpdateUserInput.fullName input))
               (default (User.email old) (UpdateUserInput.email input))
               (match UpdateUserInput.password input with
                | Some p => Some p
                | None => User.password old
                end)
               (default (User.roles old) (UpdateUserInput.roles input))
               (default (User.isActive old) (UpdateUserInput.isActive input))
               (User.lastUpdatedBy old)) actor]> db).
    { rewrite Hdb1. f_equal. unfold UsersRepository.persisted. simpl.
      destruct (UpdateUserInput.password input); [done|].
      by destruct (User.password old). }
    split; [by exists old|]. split; [done|]. split; [|done].
    intros k Hk. rewrite Hdb. by rewrite lookup_insert_ne.
Qed.

Lemma users_update_merges_onto_the_id_argument_witness :
  UsersService.update "00000000-0000-4000-8000-0000000000a1"
    (UpdateUserInput.mk "00000000-0000-4000-8000-0000000000b2" None (Some "Alice L.")
        None None None)
    Fixtures.bob Fixtures.users
  = (<["00000000-0000-4000-8000-0000000000a1" := User.mk
      "00000000-0000-4000-8000-0000000000a1" "Alice L." "alice@example.com"
                       (Some "hash(wonderland)") ["user"] true (Some
                           "00000000-0000-4000-8000-0000000000b2")]>
       Fixtures.users,
     inr (User.mk "00000000-0000-4000-8000-0000000000a1" "Alice L." "alice@example.com"
                  (Some "hash(wonderland)") ["user"] true (Some
                      "00000000-0000-4000-8000-0000000000b2"))).
Proof.
  destruct (users_update_merges_onto_the_id_argument
      "00000000-0000-4000-8000-0000000000a1" "00000000-0000-4000-8000-0000000000b2"
              (UpdateUserInput.mk "00000000-0000-4000-8000-0000000000a1" None (Some
                  "Alice L.") None None None)
              Fixtures.bob
              (User.mk "00000000-0000-4000-8000-0000000000a1" "Alice L." "alice@example.com"
                       (Some "hash(wonderland)") ["user"] true (Some
                           "00000000-0000-4000-8000-0000000000b2"))
              Fixtures.users
              (<["00000000-0000-4000-8000-0000000000a1" := User.mk
                  "00000000-0000-4000-8000-0000000000a1" "Alice L." "alice@example.com"
                           (Some "hash(wonderland)") ["user"] true (Some
                               "00000000-0000-4000-8000-0000000000b2")]>
                 Fixtures.users))
    as (_ & _ & _ & Hother).
  - vm_compute. reflexivity.
  - exact Hother.
Defined.

(** ** Listing users *)

Lemma overlaps_spec (xs ys : list string) :
  Sql.overlaps xs ys = true <-> exists r, r ∈ xs /\ r ∈ ys.
Proof.
  unfold Sql.overlaps. rewrite existsb_exists. split.
  - intros (x & Hx & Hy). apply existsb_exists in Hy as (y & Hy & Heq).
    apply String.eqb_eq in Heq. subst y. exists x.
    split; by apply list_elem_of_In.
  - intros (r & Hx & Hy). exists r. split; [by apply list_elem_of_In|].
    apply existsb_exists. exists r. split; [by apply list_elem_of_In|].
    apply String.eqb_refl.
Qed.

Lemma users_ascii : Repository.ascii_column User.fullName Fixtures.users.
Proof.
  apply map_Forall_insert_2; [done|].
  apply map_Forall_insert_2; [done|]. apply map_Forall_empty.
Qed.

(** X14. Over full names and search terms that are ASCII text, and for a
    limit L >= 1: [UsersService.findAll] returns, in table order and
    sliced by offset and then limit, the users that hold at least one of
    the requested roles (every user when no role is requested) and whose
    full name contains the search term as a case-insensitive substring
    (when a term without LIKE wildcards is given). *)
Theorem users_findAll_listing (roles : list ValidRoles.t) (L O : nat)
    (search : option string) (db : gmap string User.t) :
  1 <= L ->
  (forall term, search = Some term ->
     Sql.wildcard_free term = true /\ Js.is_ascii term = true) ->
  Repository.ascii_column User.fullName db ->
  let wanted (u : User.t) : bool :=
    (bool_decide (roles = [])
     || Sql.overlaps (User.roles u) (ValidRoles.value <$> roles))
    && Spec.search_matches search (User.fullName u) in
  UsersService.findAll roles (PaginationArgs.mk O L) (SearchArgs.mk search) db
  = take L (drop O (filter (fun u => wanted u = true) (Repository.rows db))) /\
  (forall u, wanted u = true <->
     (roles = [] \/
      exists r, r ∈ User.roles u /\ r ∈ (ValidRoles.value <$> roles)) /\
     (forall term, search = Some term ->
        exists pre post,
          Js.toLowerCase (User.fullName u)
          = pre +:+ Js.toLowerCase term +:+ post)).
Proof.
  intros HL Hterm _ wanted.
  assert (Hfree : forall term, search = Some term -> Sql.wildcard_free term = true)
    by (intros term Hs; by destruct (Hterm term Hs)).
  destruct L as [|L]; [lia|]. split.
  - unfold UsersService.findAll, QueryBuilder.getMany. simpl.
    destruct roles as [|q roles]; destruct search as [[|c s]|]; simpl;
      do 2 f_equal; apply list_filter_iff; intros u; subst wanted;
      unfold QueryBuilder.holds; simpl.
    all: try rewrite (search_condition_spec (String c s)) by (by apply Hfree).
    all: rewrite ?includes_empty, ?andb_true_r; unfold Spec.search_matches;
      simpl; done.
  - intros u. subst wanted. simpl.
    rewrite andb_true_iff, orb_true_iff, bool_decide_eq_true, overlaps_spec.
    destruct search as [term|]; simpl.
    + rewrite includes_spec_substring. split.
      * intros [Hr Hs]. split; [done|]. by intros ? [= <-].
      * intros [Hr Hs]. split; [done|]. by apply Hs.
    + split; [intros [Hr _]; by split|intros [Hr _]; by split].
Qed.

Lemma users_findAll_listing_witness :
  UsersService.findAll [ValidRoles.admin; ValidRoles.superUser]
    (PaginationArgs.mk 0 5) (SearchArgs.mk (Some "BO")) Fixtures.users
  = [Fixtures.bob].
Proof.
  destruct (users_findAll_listing [ValidRoles.admin; ValidRoles.superUser] 5 0
              (Some "BO") Fixtures.users) as [Hpage _].
  - lia.
  - intros term [= <-]. split; reflexivity.
  - exact users_ascii.
  - rewrite Hpage. vm_compute. reflexivity.
Defined.

(** ** Resolvers behind the guard *)

Lemma gate_admin (u : User.t) :
  CurrentUser (Some [ValidRoles.admin]) (Some u)
  = if bool_decide ("admin" ∈ User.roles u) then inr u
    else inl (ForbiddenException
                ("User " +:+ User.fullName u +:+ " need a valid role [admin]")).
Proof.
  unfold CurrentUser. simpl.
  destruct (for_roles [ValidRoles.admin] u (User.roles u)) as [v|] eqn:Hfor.
  - apply for_roles_inv in Hfor as (-> & r & Hr & HQ).
    apply list_elem_of_singleton in HQ. subst r.
    by rewrite bool_decide_eq_true_2.
  - rewrite bool_decide_eq_false_2; [done|].
    intros Hadmin.
    rewrite (for_roles_Some [ValidRoles.admin] u (User.roles u)) in Hfor;
      [discriminate|].
    exists "admin". split; [done|]. by apply list_elem_of_singleton.
Qed.

Lemma gate_none (u : User.t) : CurrentUser None (Some u) = inr u.
Proof. reflexivity. Qed.

Lemma validate_cases (payload : JwtPayload.t) (users : gmap string User.t) :
  JwtStrategy.validate payload users
  = match users !! JwtPayload.id payload with
    | None => inl (NotFoundException (JwtPayload.id payload +:+ " not found"))
    | Some row =>
        if User.isActive row then inr (AuthService.delete_password row)
        else inl (UnauthorizedException "User is inactive, talk with an admin")
    end.
Proof.
  unfold JwtStrategy.validate, AuthService.validateUser,
    UsersService.findOneById, UsersRepository.findOneByOrFail_id.
  destruct (users !! JwtPayload.id payload) as [row|]; [|done]. simpl.
  by destruct (User.isActive row).
Qed.

(** X15. The [updateUser] mutation reaches the users service only when
    the token's user is stored, active and holds the admin role, and then
    acts in that user's name.  Otherwise it throws NotFound (unknown
    user), Unauthorized (inactive user) or Forbidden (no admin role) and
    leaves the users table as it was. *)
Theorem updateUser_needs_an_active_admin (payload : JwtPayload.t)
    (input : UpdateUserInput.t) (users : gmap string User.t) :
  match users !! JwtPayload.id payload with
  | None =>
      UsersResolver.updateUser payload input users
      = (users,
         inl (NotFoundException (JwtPayload.id payload +:+ " not found")))
  | Some row =>
      if User.isActive row then
        if bool_decide ("admin" ∈ User.roles row) then
          UsersResolver.updateUser payload input users
          = UsersService.update (UpdateUserInput.id input) input
              (AuthService.delete_password row) users
        else
          UsersResolver.updateUser payload input users
          = (users,
             inl (ForbiddenException
                    ("User " +:+ User.fullName row
                     +:+ " need a valid role [admin]")))
      else
        UsersResolver.updateUser payload input users
        = (users,
           inl (UnauthorizedException "User is inactive, talk with an admin"))
  end.
Proof.
  unfold UsersResolver.updateUser, JwtAuthGuard.currentUser.
  rewrite validate_cases.
  destruct (users !! JwtPayload.id payload) as [row|]; [|done].
  destruct (User.isActive row); [|done].
  unfold mbind, result_bind. rewrite gate_admin. simpl.
  by destruct (bool_decide ("admin" ∈ User.roles row)).
Qed.

(** X16. The [revalidate] query answers only a stored, active user
    holding the admin role, with a token signed for that user's id and
    the user without the password; an unknown user gets NotFound, an
    inactive one Unauthorized, and one without the admin role
    Forbidden. *)
Theorem revalidate_outcomes `{JwtService} (payload : JwtPayload.t)
    (users : gmap string User.t) :
  AuthResolver.revalidateToken payload users
  = match users !! JwtPayload.id payload with
    | None => inl (NotFoundException (JwtPayload.id payload +:+ " not found"))
    | Some row =>
        if User.isActive row then
          if bool_decide ("admin" ∈ User.roles row) then
            inr (AuthResponse.mk (sign (User.id row))
                                 (AuthService.delete_password row))
          else
            inl (ForbiddenException
                   ("User " +:+ User.fullName row
                    +:+ " need a valid role [admin]"))
        else inl (UnauthorizedException "User is inactive, talk with an admin")
    end.
Proof.
  unfold AuthResolver.revalidateToken. rewrite validate_cases.
  destruct (users !! JwtPayload.id payload) as [row|]; [|done].
  destruct (User.isActive row); [|done].
  unfold mbind, result_bind. rewrite gate_admin. simpl.
  by destruct (bool_decide ("admin" ∈ User.roles row)).
Qed.

(** X17. Through the lists resolver no mutation touches a list that the
    requester does not own: whatever [createList], [updateList] or
    [removeList] is asked, every stored list whose owner is not the
    validated user of the token is still there, unchanged, afterwards
    (and so is every list when the token does not validate). *)
Theorem lists_resolver_changes_only_own_lists (payload : JwtPayload.t)
    (uuid id k : string) (createInput : CreateListInput.t)
    (updateInput : UpdateListInput.t) (r : List_.t)
    (users : gmap string User.t) (listItems : gmap string ListItem.t)
    (lists : gmap string List_.t) :
  Repository.keyed List_.id lists ->
  lists !! uuid = None ->
  lists !! k = Some r ->
  (forall reqUser, JwtStrategy.validate payload users = inr reqUser ->
                   List_.userId r <> User.id reqUser) ->
  (ListsResolver.createList payload uuid createInput users lists).1 !! k = Some r /\
  (ListsResolver.updateList payload updateInput users lists).1 !! k = Some r /\
  (ListsResolver.removeList payload id users listItems lists).1 !! k = Some r.
Proof.
  intros Hkeyed Hfresh Hr Hother.
  unfold ListsResolver.createList, ListsResolver.updateList,
    ListsResolver.removeList, JwtAuthGuard.currentUser.
  destruct (JwtStrategy.validate payload users) as [e|reqUser] eqn:Hvalidate;
    [done|].
  specialize (Hother reqUser eq_refl).
  unfold mbind, result_bind. rewrite gate_none. split; [|split].
  - unfold ListsService.create. rewrite Hfresh. simpl.
    rewrite lookup_insert_ne; [done|congruence].
  - destruct (lists_update_inv (UpdateListInput.id updateInput) updateInput
                reqUser lists)
      as [->|(stored & key & r0 & list & Hfind & Hkey & Hr0 & _ & ->)];
      [done|].
    apply lists_findOne_inv in Hfind as (key' & Hkey' & Hstored & Hown).
    rewrite Hkey in Hkey'. injection Hkey' as <-.
    rewrite lookup_insert_ne; [done|]. intros ->. congruence.
  - unfold ListsService.remove.
    destruct (ListsService.findOne id reqUser lists) as [e|stored] eqn:Hfind;
      [done|].
    apply lists_findOne_inv in Hfind as (key & Hkey & Hstored & Hown).
    destruct (ListsService.referenced _ _); [done|]. simpl.
    rewrite (keyed_lookup _ _ _ _ Hkeyed Hstored).
    rewrite lookup_delete_ne; [done|]. intros <-. congruence.
Qed.

(** Alice asks to rename and to remove Bob's list *)
Lemma lists_resolver_changes_only_own_lists_witness :
  (ListsResolver.updateList
     (JwtPayload.mk "00000000-0000-4000-8000-0000000000a1" 1700000000 4102444800)
     (UpdateListInput.mk "22222222-2222-4222-8222-222222222202" (Some "Hardware"))
     Fixtures.users Fixtures.lists).1
    !! "22222222-2222-4222-8222-222222222202"
  = Some (List_.mk "22222222-2222-4222-8222-222222222202" "Groceries"
            "00000000-0000-4000-8000-0000000000b2") /\
  (ListsResolver.removeList
     (JwtPayload.mk "00000000-0000-4000-8000-0000000000a1" 1700000000 4102444800)
     "22222222-2222-4222-8222-222222222202" Fixtures.users Fixtures.listItems
     Fixtures.lists).1
    !! "22222222-2222-4222-8222-222222222202"
  = Some (List_.mk "22222222-2222-4222-8222-222222222202" "Groceries"
            "00000000-0000-4000-8000-0000000000b2").
Proof.
  destruct (lists_resolver_changes_only_own_lists
              (JwtPayload.mk "00000000-0000-4000-8000-0000000000a1"
                 1700000000 4102444800)
              "22222222-2222-4222-8222-222222222203"
              "22222222-2222-4222-8222-222222222202"
              "22222222-2222-4222-8222-222222222202"
              (CreateListInput.mk "Party")
              (UpdateListInput.mk "22222222-2222-4222-8222-222222222202"
                 (Some "Hardware"))
              (List_.mk "22222222-2222-4222-8222-222222222202" "Groceries"
                 "00000000-0000-4000-8000-0000000000b2")
              Fixtures.users Fixtures.listItems Fixtures.lists)
    as (_ & Hupdate & Hremove).
  - exact lists_keyed.
  - reflexivity.
  - reflexivity.
  - intros reqUser Hvalidate. vm_compute in Hvalidate.
    injection Hvalidate as <-. discriminate.
  - split; [exact Hupdate|exact Hremove].
Defined.

(** ** List items: creating, updating, listing *)



(** X19. On a table that keeps (list, item) pairs unique, updating only
    the quantity and/or the completed flag of a stored list item (the
    input names the same id and re-points neither list nor item) always
    succeeds: the stored item gets the given values, keeps the others,
    stays with its list and item, and is what the method resolves to;
    every other list item is untouched. *)
Theorem listItem_update_quantity_and_completed (id : string)
    (input : UpdateListItemInput.t) (old : ListItem.t)
    (db : gmap string ListItem.t) :
  ListItemsRepository.unique_pairs db ->
  db !! id = Some old ->
  UpdateListItemInput.id input = id ->
  UpdateListItemInput.listId input = None ->
  UpdateListItemInput.itemId input = None ->
  let updated :=
    ListItem.mk id
      (default (ListItem.quantity old) (UpdateListItemInput.quantity input))
      (default (ListItem.completed old) (UpdateListItemInput.completed input))
      (ListItem.listId old) (ListItem.itemId old) in
  ListItemService.update id input db
    = (<[id := updated]> db, inr (Some updated)) /\
  (forall k, k <> id -> (<[id := updated]> db) !! k = db !! k).
Proof.
  intros Huniq Hold Hid Hlist Hitem updated.
  assert (Hset : ListItemService.set_of input old = updated).
  { unfold ListItemService.set_of. by rewrite Hid, Hlist, Hitem. }
  split; [|intros k Hk; by rewrite lookup_insert_ne].
  unfold ListItemService.update, ListItemsRepository.execute_update.
  rewrite Hold, Hset. simpl. rewrite lookup_delete_eq.
  assert (ListItemsRepository.pair_taken (delete id db) id
            (ListItem.listId old) (ListItem.itemId old) = false) as ->.
  { apply not_true_iff_false. rewrite pair_taken_spec.
    intros (k & r & Hr & Hk & Hl & Hi).
    apply lookup_delete_Some in Hr as [_ Hr].
    apply Hk. by apply (Huniq k id r old). }
  rewrite insert_delete_eq, listItem_findOne_eq. by rewrite lookup_insert_eq.
Qed.

Lemma listItem_update_quantity_and_completed_witness :
  ListItemService.update "33333333-3333-4333-8333-333333333301"
    (UpdateListItemInput.mk "33333333-3333-4333-8333-333333333301" (Some 5%Z) None None None)
    (<["33333333-3333-4333-8333-333333333301" := ListItem.mk
        "33333333-3333-4333-8333-333333333301" 2 false
        "22222222-2222-4222-8222-222222222201" "11111111-1111-4111-8111-111111111101"]>
        ∅)
  = (<["33333333-3333-4333-8333-333333333301" := ListItem.mk
      "33333333-3333-4333-8333-333333333301" 5 false
      "22222222-2222-4222-8222-222222222201" "11111111-1111-4111-8111-111111111101"]>
       (<["33333333-3333-4333-8333-333333333301" := ListItem.mk
           "33333333-3333-4333-8333-333333333301" 2 false
           "22222222-2222-4222-8222-222222222201"
           "11111111-1111-4111-8111-111111111101"]> ∅),
     inr (Some (ListItem.mk "33333333-3333-4333-8333-333333333301" 5 false
         "22222222-2222-4222-8222-222222222201"
         "11111111-1111-4111-8111-111111111101"))).
Proof.
  refine (proj1 (listItem_update_quantity_and_completed "33333333-3333-4333-8333-333333333301"
            (UpdateListItemInput.mk "33333333-3333-4333-8333-333333333301" (Some 5%Z)
                None None None)
            (ListItem.mk "33333333-3333-4333-8333-333333333301" 2 false
                "22222222-2222-4222-8222-222222222201"
                "11111111-1111-4111-8111-111111111101")
            (<["33333333-3333-4333-8333-333333333301" := ListItem.mk
                "33333333-3333-4333-8333-333333333301" 2 false
                "22222222-2222-4222-8222-222222222201"
                "11111111-1111-4111-8111-111111111101"]> ∅)
            _ eq_refl eq_refl eq_refl eq_refl)).
  intros k1 k2 r1 r2. rewrite !lookup_insert_Some, !lookup_empty.
  intros [[<- _]|[_ ?]] [[<- _]|[_ ?]]; done.
Defined.




(** ** Who may read other users' data *)

Lemma gate_admin_or_superUser (u : User.t) :
  CurrentUser (Some [ValidRoles.admin; ValidRoles.superUser]) (Some u)
  = if bool_decide ("admin" ∈ User.roles u \/ "superUser" ∈ User.roles u)
    then inr u
    else inl (ForbiddenException
                ("User " +:+ User.fullName u
                 +:+ " need a valid role [admin,superUser]")).
Proof.
  unfold CurrentUser. simpl.
  destruct (for_roles [ValidRoles.admin; ValidRoles.superUser] u (User.roles u))
    as [v|] eqn:Hfor.
  - apply for_roles_inv in Hfor as (-> & r & Hr & HQ).
    rewrite bool_decide_eq_true_2; [done|].
    apply elem_of_cons in HQ as [->|HQ]; [by left|].
    apply list_elem_of_singleton in HQ. subst r. by right.
  - rewrite bool_decide_eq_false_2; [done|].
    intros Hrole.
    rewrite (for_roles_Some [ValidRoles.admin; ValidRoles.superUser] u
               (User.roles u)) in Hfor; [discriminate|].
    destruct Hrole as [Hrole|Hrole]; [exists "admin"|exists "superUser"];
      (split; [done|]); simpl; set_solver.
Qed.

(** X21. The [users] query answers only a stored, active user holding
    the admin or the superUser role, and then with exactly what
    [UsersService.findAll] returns; an unknown requester gets NotFound,
    an inactive one Unauthorized and one with neither role Forbidden. *)
Theorem users_query_needs_admin_or_superUser (payload : JwtPayload.t)
    (validRoles : ValidRolesArgs.t)
    (paginationArgs : PaginationArgs.t) (searchArgs : SearchArgs.t)
    (users : gmap string User.t) :
  UsersResolver.findAll payload validRoles paginationArgs searchArgs users
  = match users !! JwtPayload.id payload with
    | None => inl (NotFoundException (JwtPayload.id payload +:+ " not found"))
    | Some row =>
        if User.isActive row then
          if bool_decide ("admin" ∈ User.roles row \/ "superUser" ∈ User.roles row)
          then
            inr (UsersService.findAll (ValidRolesArgs.roles validRoles)
                   paginationArgs searchArgs users)
          else
            inl (ForbiddenException
                   ("User " +:+ User.fullName row
                    +:+ " need a valid role [admin,superUser]"))
        else inl (UnauthorizedException "User is inactive, talk with an admin")
    end.
Proof.
  unfold UsersResolver.findAll, JwtAuthGuard.currentUser.
  rewrite validate_cases.
  destruct (users !! JwtPayload.id payload) as [row|]; [|done].
  destruct (User.isActive row); [|done].
  unfold mbind, result_bind. rewrite gate_admin_or_superUser. simpl.
  by destruct (bool_decide _).
Qed.

(** X22. The calculated fields of a user ([itemCount], [items], [lists],
    [listCount]) are resolved only for a stored, active requester holding
    the admin role; the answer is then the count or the listing of the
    parent user's records, not the requester's.  Any other requester gets
    the same error for all four. *)
Theorem user_fields_need_an_active_admin (payload : JwtPayload.t)
    (parent : User.t) (paginationArgs : PaginationArgs.t)
    (searchArgs : SearchArgs.t) (users : gmap string User.t)
    (items : gmap string Item.t) (lists : gmap string List_.t) :
  (forall row,
     users !! JwtPayload.id payload = Some row ->
     User.isActive row = true ->
     "admin" ∈ User.roles row ->
     UsersResolver.itemCount payload parent users items
       = inr (ItemsService.itemCountByUser parent items) /\
     UsersResolver.getItemsByUser payload parent paginationArgs searchArgs
         users items
       = inr (ItemsService.findAll parent paginationArgs searchArgs items) /\
     UsersResolver.getListsByUser payload parent paginationArgs searchArgs
         users lists
       = inr (ListsService.findAll parent paginationArgs searchArgs lists) /\
     UsersResolver.listCount payload parent users lists
       = inr (ListsService.listCountByUser parent lists)) /\
  ((forall row,
      users !! JwtPayload.id payload = Some row ->
      User.isActive row = true -> "admin" ∉ User.roles row) ->
   exists e,
     UsersResolver.itemCount payload parent users items = inl e /\
     UsersResolver.getItemsByUser payload parent paginationArgs searchArgs
         users items = inl e /\
     UsersResolver.getListsByUser payload parent paginationArgs searchArgs
         users lists = inl e /\
     UsersResolver.listCount payload parent users lists = inl e).
Proof.
  unfold UsersResolver.itemCount, UsersResolver.getItemsByUser,
    UsersResolver.getListsByUser, UsersResolver.listCount,
    JwtAuthGuard.currentUser.
  rewrite validate_cases. split.
  - intros row -> -> Hadmin. unfold mbind, result_bind.
    rewrite gate_admin. simpl. by rewrite bool_decide_eq_true_2.
  - intros Hno. destruct (users !! JwtPayload.id payload) as [row|];
      [|by eexists].
    destruct (User.isActive row) eqn:Hactive; [|by eexists].
    unfold mbind, result_bind. rewrite gate_admin. simpl.
    rewrite bool_decide_eq_false_2 by by apply (Hno row).
    by eexists.
Qed.
